(** * Astro runtime: page resolution, collections and request dispatch

    A shallow embedding of
      - [src/unnamed/part_000] (runtime/search.ts): [findAnyPage],
        [searchForPage], [loadCollection];
      - [src/packages/astro/src/runtime/index.ts]: [load].

    How the program is modelled:
      - strings are [string], one [ascii] per code unit; numbers are [Z],
        and a page size is a [Num], an integer or [Infinity];
      - the pages directory is the list of its files ([PagesDir]); probing
        a path and listing the collection files are functions of it;
      - each regular expression of the source is a function of its own,
        named after what it does and documented with the pattern;
        [loadCollection] splices the file path into a pattern: a path
        with a character special in patterns, other than the period, is
        answered by [PatternOutsideModel], not guessed at;
      - [load] awaits one call after the other: it is a computation in a
        monad [M] that logs each call to a collaborator ([Event]) and
        either returns or throws ([Outcome]); its collaborators (static
        server, bundler, module loader, the page module itself) are the
        fields of a [Host];
      - URL parsing and [decodeURI] are a field of the host,
        [decodedPathname]: [load] is modelled from the decoded path on.  A
        raw URL that does not parse or decode makes [load] throw before its
        first call; such requests are not in the model;
      - numbers are exact: the model follows the program on the integers a
        double holds exactly, up to 2^53 ([MAX_SAFE_INTEGER] and one more).
        Statements that print or read back a page number say so. *)

From Stdlib Require Import String Ascii List ZArith Bool Lia.
From Stdlib Require Import DecimalString DecimalPos.
Import ListNotations.
Open Scope Z_scope.
Open Scope list_scope.
Open Scope string_scope.

(** ** String primitives of the host language *)

Module Str.

(** [s.endsWith(suf)] *)
Fixpoint endsWith (s suf : string) : bool :=
  (s =? suf) ||
  match s with
  | EmptyString => false
  | String _ t => endsWith t suf
  end.

(** [s.startsWith(p)] *)
Fixpoint startsWith (s p : string) {struct p} : bool :=
  match p with
  | EmptyString => true
  | String a p' =>
      match s with
      | EmptyString => false
      | String b s' => (a =? b)%char && startsWith s' p'
      end
  end.

(** [s.includes(sub)] *)
Fixpoint includes (s sub : string) : bool :=
  startsWith s sub ||
  match s with
  | EmptyString => false
  | String _ t => includes t sub
  end.

(** [s.substr(1)] *)
Definition substr1 (s : string) : string :=
  match s with
  | EmptyString => EmptyString
  | String _ t => t
  end.

(** [s.split(sep)] for a one-character separator: never the empty list. *)
Fixpoint split (sep : ascii) (s : string) : list string :=
  match s with
  | EmptyString => [EmptyString]
  | String c t =>
      if (c =? sep)%char then EmptyString :: split sep t
      else match split sep t with
           | [] => [String c EmptyString]
           | w :: ws => String c w :: ws
           end
  end.

(** [l.join(sep)] *)
Fixpoint join (sep : string) (l : list string) : string :=
  match l with
  | [] => EmptyString
  | [x] => x
  | x :: r => x ++ sep ++ join sep r
  end.

(** [!!s] for a string: the empty string is falsy. *)
Definition truthy (s : string) : bool := negb (s =? EmptyString).

(** String reversal, used to scan from the end as [$]-anchored patterns do. *)
Fixpoint rev_onto (s acc : string) : string :=
  match s with
  | EmptyString => acc
  | String c t => rev_onto t (String c acc)
  end.

Definition rev (s : string) : string := rev_onto s EmptyString.

Definition is_digit (c : ascii) : bool :=
  let n := nat_of_ascii c in (48 <=? n)%nat && (n <=? 57)%nat.

(** The characters [.] does not match in a pattern without the [s] flag. *)
Definition is_line_terminator (c : ascii) : bool :=
  let n := nat_of_ascii c in (n =? 10)%nat || (n =? 13)%nat.

(** White space skipped by [parseInt]: the white space and line terminator
    characters among the code units below 256 (tab to carriage return,
    space, no-break space). *)
Definition is_space (c : ascii) : bool :=
  let n := nat_of_ascii c in
  (n =? 32)%nat || ((9 <=? n)%nat && (n <=? 13)%nat) || (n =? 160)%nat.

(** Longest prefix of [s] whose characters satisfy [p], and the rest. *)
Fixpoint span (p : ascii -> bool) (s : string) : string * string :=
  match s with
  | EmptyString => (EmptyString, EmptyString)
  | String c t =>
      if p c then let '(a, b) := span p t in (String c a, b)
      else (EmptyString, s)
  end.

(** [`${n}`] for an integer: its decimal digits.  A double prints so when
    it is an integer below 10^21 and holds it exactly, which it does up to
    2^53. *)
Definition of_Z (n : Z) : string := NilEmpty.string_of_int (Z.to_int n).

(** The double-quote character, for messages that quote a name. *)
Definition dquote : string := String (ascii_of_nat 34) EmptyString.

End Str.

(** ** [parseInt(s, 10)]

    [None] is [NaN].  Leading white space is skipped, one sign is accepted,
    then the longest run of decimal digits is read; no digit gives [NaN].
    The value is exact; [parseInt] gives a double, which is the same
    number up to 2^53 and a rounded one above. *)

Fixpoint digits_value (s : string) (acc : Z) : Z :=
  match s with
  | EmptyString => acc
  | String c t => digits_value t (10 * acc + (Z.of_nat (nat_of_ascii c) - 48))
  end.

Definition parseInt10 (s : string) : option Z :=
  let '(_, s1) := Str.span Str.is_space s in
  let '(neg, s2) :=
    match s1 with
    | String "-" t => (true, t)
    | String "+" t => (false, t)
    | _ => (false, s1)
    end in
  let '(ds, _) := Str.span Str.is_digit s2 in
  match ds with
  | EmptyString => None
  | _ => let v := digits_value ds 0 in Some (if neg then - v else v)
  end.

(** Truthiness of a number that may be [NaN]. *)
Definition truthy_num (n : option Z) : bool :=
  match n with
  | Some v => negb (v =? 0)%Z
  | None => false
  end.

(** ** [path.extname] (Node, POSIX flavour)

    The loop of Node's implementation, index by index from the end of the
    string; [-1] marks "not seen yet" as there. *)

Record ExtScan := {
  startDot : Z;
  startPart : Z;
  endIdx : Z;
  matchedSlash : bool;
  preDotState : Z
}.

Definition ext_init : ExtScan :=
  {| startDot := -1; startPart := 0; endIdx := -1;
     matchedSlash := true; preDotState := 0 |}.

Fixpoint extname_loop (path : string) (n : nat) (st : ExtScan) : ExtScan :=
  match n with
  | O => st
  | S i =>
      let zi := Z.of_nat i in
      match String.get i path with
      | None => st
      | Some code =>
          if (code =? "/")%char then
            if negb (matchedSlash st) then
              {| startDot := startDot st; startPart := zi + 1;
                 endIdx := endIdx st; matchedSlash := matchedSlash st;
                 preDotState := preDotState st |}
            else extname_loop path i st
          else
            let st1 :=
              if (endIdx st =? -1)%Z then
                {| startDot := startDot st; startPart := startPart st;
                   endIdx := zi + 1; matchedSlash := false;
                   preDotState := preDotState st |}
              else st in
            let st2 :=
              if (code =? ".")%char then
                if (startDot st1 =? -1)%Z then
                  {| startDot := zi; startPart := startPart st1;
                     endIdx := endIdx st1; matchedSlash := matchedSlash st1;
                     preDotState := preDotState st1 |}
                else if negb (preDotState st1 =? 1)%Z then
                  {| startDot := startDot st1; startPart := startPart st1;
                     endIdx := endIdx st1; matchedSlash := matchedSlash st1;
                     preDotState := 1 |}
                else st1
              else if negb (startDot st1 =? -1)%Z then
                {| startDot := startDot st1; startPart := startPart st1;
                   endIdx := endIdx st1; matchedSlash := matchedSlash st1;
                   preDotState := -1 |}
              else st1 in
            extname_loop path i st2
      end
  end.

Definition extname (path : string) : string :=
  let st := extname_loop path (String.length path) ext_init in
  if ((startDot st =? -1) || (endIdx st =? -1) || (preDotState st =? 0) ||
      ((preDotState st =? 1) && (startDot st =? endIdx st - 1) &&
       (startDot st =? startPart st + 1)))%Z
  then EmptyString
  else substring (Z.to_nat (startDot st))
                 (Z.to_nat (endIdx st - startDot st)) path.

(** ** The pages directory

    [astroConfig.pages] is a directory on disk.  It is modelled by the files
    below it, each one as the list of its path segments, in the order a
    directory walk lists them.  A directory exists when a file lies below
    it. *)

Definition PagesDir := list (list string).

Fixpoint segs_prefix (p f : list string) : bool :=
  match p, f with
  | [], _ => true
  | _ :: _, [] => false
  | a :: p', b :: f' => (a =? b) && segs_prefix p' f'
  end.

(** The segments a relative path names: the file system ignores empty ones
    ([a//b] is [a/b]).  Request paths come out of [URL.pathname], which has
    no [.] or [..] segment left, so these are not interpreted. *)
Definition path_segments (candidate : string) : list string :=
  filter Str.truthy (Str.split "/" candidate).

(** [existsSync(new URL(`./${candidate}`, astroConfig.pages))].  The
    candidate is compared with the files as it is written: a percent sign
    in it is not taken for an escape. *)
Definition existsSync (pages : PagesDir) (candidate : string) : bool :=
  let segs := path_segments candidate in
  match segs with
  | [] => true
  | _ => existsb (segs_prefix segs) pages
  end.

(** The source file a resolved route is served from: a file below the pages
    directory (named by the candidate that was probed), or the built-in
    [./frontend/500.astro]. *)
Inductive Location :=
| PageFile (candidate : string)
| Frontend500.

(** [findAnyPage]: the first candidate that exists, or [false] ([None]). *)
Fixpoint findAnyPage (candidates : list string) (pages : PagesDir)
  : option Location :=
  match candidates with
  | [] => None
  | candidate :: rest =>
      if existsSync pages candidate then Some (PageFile candidate)
      else findAnyPage rest pages
  end.

(** ** [glob('**/$*.astro', { cwd: pages, filesOnly: true })]

    tiny-glob walks the directory and keeps the files whose base name is
    [$], anything, [.astro]; without its [dot] option it skips every entry
    whose name starts with a period (followed by something else than a
    period).  Its test for such names is taken as one that only looks at
    the name. *)

Definition hidden_entry (name : string) : bool :=
  match name with
  | String "." (String c _) =>
      negb ((c =? ".")%char || (c =? "/")%char || (c =? "\")%char)
  | _ => false
  end.

Definition is_collection_name (name : string) : bool :=
  Str.startsWith name "$" && Str.endsWith name ".astro" &&
  (7 <=? String.length name)%nat.

Definition glob_collections (pages : PagesDir) : list string :=
  map (Str.join "/")
      (filter (fun f => negb (existsb hidden_entry f) &&
                        is_collection_name (last f EmptyString))
              pages).

(** ** The patterns of [loadCollection] *)

(** [[^/]+\.astro] at the start of [s], greedy: the longest non-empty run
    of non-slash characters that is followed by [.astro].  Returns the run
    and what follows [.astro]. *)
Fixpoint param_name (s : string) : option (string * string) :=
  match s with
  | EmptyString => None
  | String c t =>
      if (c =? "/")%char then None
      else
        match param_name t with
        | Some (name, rest) => Some (String c name, rest)
        | None =>
            if Str.startsWith t ".astro"
            then Some (String c EmptyString, substring 6 (String.length t - 6) t)
            else None
        end
  end.

(** [pageURL.replace(/\$([^/]+)\.astro/, '$1')]: the leftmost match only. *)
Fixpoint replace_param (pageURL : string) : string :=
  match pageURL with
  | EmptyString => EmptyString
  | String c t =>
      if (c =? "$")%char then
        match param_name t with
        | Some (name, rest) => name ++ rest
        | None => String c (replace_param t)
        end
      else String c (replace_param t)
  end.

(** What a character of the file path means once it is spliced into the
    source of a [RegExp]: itself, or (for a period) any character but a line
    terminator.  The other characters with a meaning in a pattern are
    outside this model. *)
Inductive Atom :=
| Lit (c : ascii)
| AnyChar.

Definition is_meta (c : ascii) : bool :=
  existsb (fun m => (c =? m)%char)
          ["\"; "^"; "$"; "*"; "+"; "?"; "("; ")"; "["; "]"; "{"; "}"; "|"]%char.

Fixpoint atoms_of (src : string) : option (list Atom) :=
  match src with
  | EmptyString => Some []
  | String c t =>
      if is_meta c then None
      else match atoms_of t with
           | Some l => Some ((if (c =? ".")%char then AnyChar else Lit c) :: l)
           | None => None
           end
  end.

(** Consume the atoms at the start of [s]; what is left of [s]. *)
Fixpoint eat_atoms (l : list Atom) (s : string) : option string :=
  match l, s with
  | [], _ => Some s
  | _ :: _, EmptyString => None
  | Lit a :: l', String c t => if (a =? c)%char then eat_atoms l' t else None
  | AnyChar :: l', String c t =>
      if Str.is_line_terminator c then None else eat_atoms l' t
  end.

(** The result of [url.match(re)]: [null], or the match with its group 1
    ([undefined] when the group did not take part). *)
Inductive MatchResult :=
| NoMatch
| Matched (group1 : option string).

(** [url.match(reqURL)], where [reqURL] is the pattern made of [^/], the
    atoms of [name] and a non-capturing group of two alternatives: a slash
    followed by group 1 (any characters up to the next line terminator), or
    an optional slash followed by the end of the input. *)
Definition match_route (name : list Atom) (url : string) : MatchResult :=
  match eat_atoms (Lit "/" :: name) url with
  | None => NoMatch
  | Some rest =>
      match rest with
      | String "/" after =>
          Matched (Some (fst (Str.span (fun c => negb (Str.is_line_terminator c)) after)))
      | EmptyString => Matched None
      | _ => NoMatch
      end
  end.

(** ** [loadCollection] *)

Inductive CollectionMatch :=
| NoCollection                       (* [undefined] *)
| Collection (location : Location) (currentPage : option Z)
| PatternOutsideModel (pageURL : string).

(** The body of [if (match) { ... }]: the page number carried by group 1. *)
Definition page_of_match (group1 : option string) : option Z :=
  match group1 with
  | Some g =>
      if Str.truthy g then
        let segments := filter Str.truthy (Str.split "/" g) in
        match segments with
        | [] => None
        | _ =>
            let last := List.last segments EmptyString in
            if truthy_num (parseInt10 last) then parseInt10 last else None
        end
      else None
  | None => None
  end.

Fixpoint loadCollection_loop (pages : list string) (url : string)
  : CollectionMatch :=
  match pages with
  | [] => NoCollection
  | pageURL :: rest =>
      match atoms_of (replace_param pageURL) with
      | None => PatternOutsideModel pageURL
      | Some name =>
          match match_route name url with
          | Matched group1 =>
              Collection (PageFile pageURL) (page_of_match group1)
          | NoMatch => loadCollection_loop rest url
          end
      end
  end.

Definition loadCollection (url : string) (pages : PagesDir) : CollectionMatch :=
  loadCollection_loop (glob_collections pages) url.

(** ** [searchForPage] *)

Inductive SearchResult :=
| Found (location : Location) (pathname : string) (currentPage : option Z)
                                                        (* statusCode 200 *)
| Moved (pathname : string)                             (* statusCode 301 *)
| Missing                                               (* statusCode 404 *)
| SearchOutsideModel (pageURL : string).

(** [x || 1] for an optional number. *)
Definition or_one (n : option Z) : Z :=
  match n with
  | Some v => if (v =? 0)%Z then 1 else v
  | None => 1
  end.

(** The tail of [searchForPage], from the reserved [/500] path on. *)
Definition search_reserved (reqPath : string) : SearchResult :=
  if reqPath =? "/500" then Found Frontend500 reqPath None else Missing.

(** [reqPath] is [decodeURI(url.pathname)]. *)
Definition searchForPage (reqPath : string) (pages : PagesDir) : SearchResult :=
  let base := Str.substr1 reqPath in
  let direct :=
    if Str.endsWith reqPath "/"
    then findAnyPage [base ++ "index.astro"; base ++ "index.md"] pages
    else findAnyPage [base ++ ".astro"; base ++ ".md"] pages in
  match direct with
  | Some location => Found location reqPath None
  | None =>
      match findAnyPage [base ++ "/index.astro"; base ++ "/index.md"] pages with
      | Some _ => Moved (reqPath ++ "/")
      | None =>
          let hasExt := Str.truthy (extname reqPath) in
          if negb hasExt then
            match loadCollection reqPath pages with
            | Collection location currentPage =>
                Found location reqPath (Some (or_one currentPage))
            | NoCollection => search_reserved reqPath
            | PatternOutsideModel p => SearchOutsideModel p
            end
          else search_reserved reqPath
      end
  end.

(** ** Values of the runtime *)

(** A number that is an integer or [Infinity] (a page size). *)
Inductive Num :=
| Fin (n : Z)
| Infinity.

(** [!!n] *)
Definition num_truthy (n : Num) : bool :=
  match n with
  | Fin v => negb (v =? 0)%Z
  | Infinity => true
  end.

(** The classes [load] tells apart with [instanceof]. *)
Inductive ErrClass :=
| ClsError
| ClsSyntaxError
| ClsReferenceError
| ClsNotFoundError.

(** A thrown value, with the properties [load] reads from it. *)
Record JsError := {
  err_class : ErrClass;
  err_message : string;
  err_code : option string;     (* [err.code] *)
  err_failed : bool             (* [err.failed] *)
}.

(** [new Error(message)] *)
Definition mkError (message : string) : JsError :=
  {| err_class := ClsError; err_message := message;
     err_code := None; err_failed := false |}.

(** [err.toString()]: the class name, then [": "] and the message if there
    is one. *)
Definition class_name (c : ErrClass) : string :=
  match c with
  | ClsError => "Error"
  | ClsSyntaxError => "SyntaxError"
  | ClsReferenceError => "ReferenceError"
  | ClsNotFoundError => "NotFoundError"
  end.

Definition err_toString (e : JsError) : string :=
  if Str.truthy (err_message e)
  then class_name (err_class e) ++ ": " ++ err_message e
  else class_name (err_class e).

(** What a call gives: a value, or an exception. *)
Inductive Outcome (A : Type) :=
| Returns (a : A)
| Throws (e : JsError).
Arguments Returns {A} a.
Arguments Throws {A} e.

(** Route parameters: an object from names to values. *)
Definition Params := list (string * string).

(** A [Set<string>]: its entries in insertion order. *)
Definition set_add (x : string) (s : list string) : list string :=
  if existsb (String.eqb x) s then s else (s ++ [x])%list.

(** [arr.slice(start, end)] *)
Definition js_slice {A : Type} (l : list A) (start stop : Z) : list A :=
  let len := Z.of_nat (length l) in
  let k := if (start <? 0)%Z then Z.max (len + start) 0 else Z.min start len in
  let fin := if (stop <? 0)%Z then Z.max (len + stop) 0 else Z.min stop len in
  firstn (Z.to_nat (fin - k)) (skipn (Z.to_nat k) l).

(** [Math.ceil(a / b)] for integers, [b] not zero. *)
Definition ceil_div (a b : Z) : Z := - ((- a) / b).

(** ** The rewriting of page URLs *)

(** [s.replace(/(\/\d+)?$/, r)]: a final [/digits] segment is replaced by
    [r]; without one, the empty match at the end is, so [r] is appended.
    A match of the group runs to the end of the input, so it starts at the
    last slash and the digits are the trailing run of digits. *)
Definition replace_page_suffix (s r : string) : string :=
  match Str.span Str.is_digit (Str.rev s) with
  | (String _ _, String "/" x) => Str.rev x ++ r
  | _ => s ++ r
  end.

(** [s.replace(/\d+$/, r)]: the trailing run of digits, if there is one. *)
Definition replace_trailing_digits (s r : string) : string :=
  match Str.span Str.is_digit (Str.rev s) with
  | (String _ _, x) => Str.rev x ++ r
  | _ => s
  end.

(** [s.replace(/\/1$/, '')] *)
Definition strip_slash_one (s : string) : string :=
  match Str.rev s with
  | String "1" (String "/" x) => Str.rev x
  | _ => s
  end.

(** [additionalURLs.forEach((url) => additionalURLs.add(f(url)))].  A [Set]
    iteration also visits the entries added while it runs: the loop goes on
    until the index passes the end of the (growing) set.  [fuel] bounds the
    number of visits. *)
Fixpoint forEach_add (f : string -> string) (fuel i : nat) (s : list string)
  : list string :=
  match fuel with
  | O => s
  | S k =>
      match nth_error s i with
      | None => s
      | Some url => forEach_add f k (S i) (set_add (f url) s)
      end
  end.

(** One round of the [for (let n = 1; ...)] loop.  Every entry is visited at
    most once and an entry added by the round is left unchanged by it, so
    twice the size of the set is fuel enough ([forEach_add_fuel]). *)
Definition add_page_urls (reqPath : string) (n : Z) (additionalURLs : list string)
  : list string :=
  let page := "/" ++ Str.of_Z n in
  match additionalURLs with
  | [] => set_add (replace_page_suffix reqPath page) additionalURLs
  | _ => forEach_add (fun url => replace_page_suffix url page)
                     (2 * length additionalURLs) 0 additionalURLs
  end.

(** [for (let n = 1; n <= last; n++)], counted by the rounds left. *)
Fixpoint add_pages_from (reqPath : string) (n : Z) (rounds : nat)
                        (additionalURLs : list string) : list string :=
  match rounds with
  | O => additionalURLs
  | S k => add_pages_from reqPath (n + 1) k (add_page_urls reqPath n additionalURLs)
  end.

(** ** The request dispatcher, [load] *)

Section Runtime.

(** The records a collection loads, and the feed options of [rss]. *)
Variables (Item Feed : Type).

(** What [data()] resolves to. *)
Inductive Loaded :=
| LoadedNothing                      (* a falsy value *)
| LoadedArray (items : list Item)
| LoadedOne (item : Item).           (* a truthy value that is no array *)

(** An own property of the object [createCollection()] returns.  Their keys,
    in order, are [Object.keys(createCollection)]. *)
Inductive Field :=
| FData (loadData : Params -> Outcome Loaded)
| FRoutes (routes : list Params)
| FPermalink (permalink : Params -> Outcome string)
| FPageSize (pageSize : Num)
| FRss (createRSS : Feed)
| FOther (key : string).

Definition field_key (f : Field) : string :=
  match f with
  | FData _ => "data"
  | FRoutes _ => "routes"
  | FPermalink _ => "permalink"
  | FPageSize _ => "pageSize"
  | FRss _ => "rss"
  | FOther key => key
  end.

Definition CreateCollection := list Field.

(** The destructuring [let { data: loadData, routes, permalink, pageSize,
    rss: createRSS } = createCollection]. *)
Fixpoint get_data (c : CreateCollection) : option (Params -> Outcome Loaded) :=
  match c with
  | [] => None
  | FData f :: _ => Some f
  | _ :: r => get_data r
  end.

Fixpoint get_routes (c : CreateCollection) : option (list Params) :=
  match c with
  | [] => None
  | FRoutes l :: _ => Some l
  | _ :: r => get_routes r
  end.

Fixpoint get_permalink (c : CreateCollection) : option (Params -> Outcome string) :=
  match c with
  | [] => None
  | FPermalink f :: _ => Some f
  | _ :: r => get_permalink r
  end.

Fixpoint get_pageSize (c : CreateCollection) : option Num :=
  match c with
  | [] => None
  | FPageSize n :: _ => Some n
  | _ :: r => get_pageSize r
  end.

Fixpoint get_rss (c : CreateCollection) : option Feed :=
  match c with
  | [] => None
  | FRss r :: _ => Some r
  | _ :: r => get_rss r
  end.

(** [rss]: the feed options spread, and [data], a copy of the full data. *)
Record Rss := {
  rss_feed : Feed;
  rss_data : list Item
}.

Record CollectionInfo := {
  additionalURLs : list string;
  rss : option Rss
}.

(** [collection], the [CollectionResult] handed to the page. *)
Record CollectionResult := {
  c_start : Z;
  c_end : Z;
  c_total : Z;
  page_current : Z;
  page_size : Num;
  page_last : Z;
  url_current : string;
  url_next : option string;
  url_prev : option string;
  c_params : option Params;
  c_data : list Item
}.

(** [LoadResult], by status code.  [LoadOutsideModel] is no answer of the
    program: it marks a request that met a collection file whose pattern
    the model does not cover (the program may answer it, or throw the
    [SyntaxError] of an ill-formed pattern). *)
Inductive LoadResult :=
| Load200 (contents contentType : string) (collectionInfo : option CollectionInfo)
| Load301 (location : string) (collectionInfo : option CollectionInfo)
| Load404 (error : JsError) (collectionInfo : option CollectionInfo)
| Load500 (type : string) (error : JsError)
| LoadOutsideModel (pageURL : string).

Definition statusCode (r : LoadResult) : Z :=
  match r with
  | Load200 _ _ _ => 200
  | Load301 _ _ => 301
  | Load404 _ _ => 404
  | Load500 _ _ => 500
  | LoadOutsideModel _ => 0
  end.

(** The argument of [mod.__renderPage]: the request URL (rebuilt from the
    raw one, with or without its query), the props and the styles. *)
Record RenderArgs := {
  request_raw : option string;
  query_kept : bool;
  props : option CollectionResult;
  css : list string
}.

(** [mod.css] *)
Inductive CssExport :=
| CssArray (l : list string)
| CssString (s : string)
| CssOther.

(** The module [viteServer.ssrLoadModule] gives. *)
Record PageModule := {
  createCollection : option (Outcome CreateCollection);
  renderPage : RenderArgs -> Outcome string;
  mod_css : CssExport
}.

(** What [viteServer.transformRequest] resolves to. *)
Inductive Transformed :=
| TNull
| TString (s : string)
| TObject (code : string).

(** The collaborators of [load] and the constants it imports. *)
Record Host := {
  pages : PagesDir;
  ASTRO_FRONTEND : string;
  (* [decodeURI(new URL(raw, origin).pathname)] *)
  decodedPathname : string -> string;
  loadStaticFile : string -> Outcome LoadResult;
  loadInternalFile : string -> Outcome LoadResult;
  transformRequest : string -> Outcome Transformed;
  mime_getType : string -> option string;
  ssrLoadModule : Location -> Outcome PageModule;
  (* the [CompileError] of the [NotFoundError] branch, built from the error
     text, the raw path and the source file read from disk *)
  notFoundCompileError : JsError -> string -> JsError
}.

(** The calls [load] makes, in order. *)
Inductive Event :=
| EvStatic (path : string)
| EvInternal (path : string)
| EvSearch (pathname : string)
| EvTransform (path : string)
| EvLoadModule (location : Location)
| EvCreateCollection
| EvPermalink (params : Params)
| EvData (params : Params)
| EvRender (args : RenderArgs).

(** Computations that call out and may throw: the trace so far goes in, the
    trace and the outcome come out. *)
Definition M (A : Type) : Type := list Event -> list Event * Outcome A.

Definition ret {A} (a : A) : M A := fun tr => (tr, Returns a).

Definition throw {A} (e : JsError) : M A := fun tr => (tr, Throws e).

Definition bind {A B} (m : M A) (k : A -> M B) : M B :=
  fun tr =>
    match m tr with
    | (tr', Returns a) => k a tr'
    | (tr', Throws e) => (tr', Throws e)
    end.

(** Make a call: log it, then take its outcome. *)
Definition call {A} (ev : Event) (o : Outcome A) : M A :=
  fun tr => ((tr ++ [ev])%list, o).

(** [try { m } catch (err) { h err }] *)
Definition try_catch {A} (m : M A) (h : JsError -> M A) : M A :=
  fun tr =>
    match m tr with
    | (tr', Returns a) => (tr', Returns a)
    | (tr', Throws e) => h e tr'
    end.

Notation "x <- m ;; k" := (bind m (fun x => k))
  (at level 61, m at next level, right associativity).

(** *** The collection block (the body of [if (mod.createCollection)]) *)

Definition VALID_KEYS : list string :=
  ["data"; "routes"; "permalink"; "pageSize"; "rss"].

Definition unknown_option_message (key : string) : string :=
  "[createCollection] unknown option: " ++ Str.dquote ++ key ++ Str.dquote ++
  ". Expected one of " ++ Str.join ", " VALID_KEYS ++ ".".

(** [for (const key of Object.keys(createCollection))] *)
Fixpoint check_keys (keys : list string) : M unit :=
  match keys with
  | [] => ret tt
  | key :: rest =>
      if negb (existsb (String.eqb key) VALID_KEYS)
      then throw (mkError (unknown_option_message key))
      else check_keys rest
  end.

(** [routes.find((p) => { ... })]: the permalink of each route is added to
    the set until one is the requested path, bare or with the page number. *)
Fixpoint find_route (permalink : Params -> Outcome string) (reqPath : string)
                    (currentPage : option Z) (routes : list Params)
                    (urls : list string) : M (option Params * list string) :=
  match routes with
  | [] => ret (None, urls)
  | p :: rest =>
      baseURL <- call (EvPermalink p) (permalink p) ;;
      let urls' := set_add baseURL urls in
      if (baseURL =? reqPath) ||
         (baseURL ++ "/" ++ Str.of_Z (or_one currentPage) =? reqPath)
      then ret (Some p, urls')
      else find_route permalink reqPath currentPage rest urls'
  end.

(** How the block ends: with a [return] out of [load], or by falling
    through to the rendering with the collection. *)
Inductive BlockExit :=
| Return (r : LoadResult)
| Continue (collection : CollectionResult) (info : CollectionInfo).

Definition truthy_page (currentPage : option Z) : bool := truthy_num currentPage.

(** [if (!pageSize) pageSize = 25] *)
Definition default_pageSize (declared : option Num) : Num :=
  match declared with
  | Some n => if num_truthy n then n else Fin 25
  | None => Fin 25
  end.

(** [!!createCollection.pageSize] *)
Definition declares_pageSize (declared : option Num) : bool :=
  match declared with
  | Some n => num_truthy n
  | None => false
  end.

(** [if (!Array.isArray(data)) data = [data]] *)
Definition as_array (loaded : Loaded) : list Item :=
  match loaded with
  | LoadedNothing => []
  | LoadedArray l => l
  | LoadedOne x => [x]
  end.

(** [currentParams]: the requested parameters, or [{}]. *)
Definition params_or_empty (requestedParams : option Params) : Params :=
  match requestedParams with
  | Some p => p
  | None => []
  end.

(** [rss.data ? rss : undefined], with [rss] the feed options and a copy of
    the data as loaded when [createRSS] is given, and [{}] otherwise. *)
Definition rss_payload (createRSS : option Feed) (data : list Item) : option Rss :=
  match createRSS with
  | Some feed => Some {| rss_feed := feed; rss_data := data |}
  | None => None
  end.

(** [start], [end] and [collection.page.last] of the paginated branch. *)
Definition page_start (pageSize : Num) (p : Z) : Z :=
  match pageSize with
  | Infinity => 0
  | Fin n => (p - 1) * n
  end.

Definition page_stop (pageSize : Num) (start total : Z) : Z :=
  match pageSize with
  | Infinity => total
  | Fin n => Z.min (start + n) total
  end.

Definition last_page (pageSize : Num) (total : Z) : Z :=
  match pageSize with
  | Infinity => 0
  | Fin n => ceil_div total n
  end.

(** [collection.url.next] and [collection.url.prev] *)
Definition next_url (reqPath : string) (p : Z) : string :=
  replace_page_suffix reqPath ("/" ++ Str.of_Z (p + 1)).

Definition prev_url (reqPath : string) (p : Z) : string :=
  strip_slash_one
    (replace_trailing_digits reqPath
       (Str.of_Z (if (p - 1 =? 0)%Z then 1 else p - 1))).

(** From the loaded data to the end of the block: the RSS payload, the
    pagination or the redirect to page 1, and the check for an empty
    page. *)
Definition paginate (reqPath : string) (currentPage : option Z)
                    (declared : option Num) (createRSS : option Feed)
                    (requestedParams : option Params) (urls : list string)
                    (data : list Item) : BlockExit :=
  let pageSize := default_pageSize declared in
  let rss := rss_payload createRSS data in
  let total := Z.of_nat (length data) in
  if truthy_page currentPage then
    (* paginate *)
    let p := match currentPage with Some p => p | None => 0 end in
    let start := page_start pageSize p in
    let stop := page_stop pageSize start total in
    let last := last_page pageSize total in
    let next := if (stop <? total)%Z then Some (next_url reqPath p) else None in
    let prev := if (1 <? p)%Z then Some (prev_url reqPath p) else None in
    let urls' := add_pages_from reqPath 1 (Z.to_nat last) urls in
    let sliced := js_slice data start stop in
    let info := {| additionalURLs := urls'; rss := rss |} in
    match sliced with
    | [] => Return (Load404 (mkError "Not Found") (Some info))
    | _ =>
        Continue
          {| c_start := start; c_end := stop - 1; c_total := total;
             page_current := p; page_size := pageSize; page_last := last;
             url_current := reqPath; url_next := next; url_prev := prev;
             c_params := requestedParams; c_data := sliced |}
          info
    end
  else
    let info := {| additionalURLs := urls; rss := rss |} in
    if declares_pageSize declared then
      Return (Load301 (reqPath ++ "/1") (Some info))
    else
      match data with
      | [] => Return (Load404 (mkError "Not Found") (Some info))
      | _ =>
          Continue
            {| c_start := 0; c_end := total - 1; c_total := total;
               page_current := 1; page_size := pageSize; page_last := 1;
               url_current := reqPath; url_next := None; url_prev := None;
               c_params := requestedParams; c_data := data |}
            info
      end.

(** The routes of the declaration: [routes] and [permalink] go together. *)
Definition resolve_params (reqPath : string) (currentPage : option Z)
                          (decl : CreateCollection)
  : M (option Params * list string) :=
  match get_routes decl, get_permalink decl with
  | None, None => ret (None, [])
  | None, Some _ =>
      throw (mkError "[createCollection] `permalink` requires `routes` as well.")
  | Some _, None =>
      throw (mkError "[createCollection] `routes` requires `permalink` as well.")
  | Some routes, Some permalink =>
      find_route permalink reqPath currentPage routes []
  end.

Definition collection_block (reqPath : string) (currentPage : option Z)
                            (decl : CreateCollection) : M BlockExit :=
  _ <- check_keys (map field_key decl) ;;
  match get_data decl with
  | None =>
      throw (mkError "[createCollection] must return `data()` function to create a collection.")
  | Some loadData =>
      found <- resolve_params reqPath currentPage decl ;;
      let '(requestedParams, urls) := found in
      let currentParams := params_or_empty requestedParams in
      loaded <- call (EvData currentParams) (loadData currentParams) ;;
      match loaded with
      | LoadedNothing =>
          throw (mkError ("[createCollection] `data()` returned nothing (empty data)" ++ Str.dquote))
      | _ =>
          ret (paginate reqPath currentPage (get_pageSize decl) (get_rss decl)
                        requestedParams urls (as_array loaded))
      end
  end.

(** *** The [catch] clause of [load] *)

Definition ssr_message (reqPath : string) : string :=
  "[" ++ reqPath ++ "]
    The window object is not available during server-side rendering (SSR).
    Try using `import.meta.env.SSR` to write SSR-friendly code.
    https://docs.astro.build/reference/api-reference/#importmeta".

Definition is_class (c : ErrClass) (e : JsError) : bool :=
  match err_class e, c with
  | ClsError, ClsError
  | ClsSyntaxError, ClsSyntaxError
  | ClsReferenceError, ClsReferenceError
  | ClsNotFoundError, ClsNotFoundError => true
  | _, _ => false
  end.

Definition code_is (e : JsError) (code : string) : bool :=
  match err_code e with
  | Some c => c =? code
  | None => false
  end.

Definition opt_truthy (s : option string) : bool :=
  match s with
  | Some r => Str.truthy r
  | None => false
  end.

Definition classify (H : Host) (reqPath : string) (rawPathname : option string)
                    (err : JsError) : LoadResult :=
  if code_is err "parse-error" || is_class ClsSyntaxError err then
    Load500 "parse-error" err
  else if is_class ClsReferenceError err &&
          Str.includes (err_toString err) "window is not defined" then
    Load500 "ssr" (mkError (ssr_message reqPath))
  else if is_class ClsNotFoundError err && opt_truthy rawPathname then
    Load500 "not-found"
            (notFoundCompileError H err
               (match rawPathname with Some r => r | None => EmptyString end))
  else
    Load500 "unknown" err.

(** *** The [try] block: load the module, build the collection, render *)

Definition css_list (c : CssExport) : list string :=
  match c with
  | CssArray l => l
  | CssString s => [s]
  | CssOther => []
  end.

Definition render_page (H : Host) (rawPathname : option string) (reqPath : string)
                       (location : Location) (currentPage : option Z)
  : M LoadResult :=
  pageModule <- call (EvLoadModule location) (ssrLoadModule H location) ;;
  exit <-
    match createCollection pageModule with
    | Some created =>
        decl <- call EvCreateCollection created ;;
        b <- collection_block reqPath currentPage decl ;;
        ret (match b with
             | Return r => inl r
             | Continue collection info => inr (Some collection, info)
             end)
    | None => ret (inr (None, {| additionalURLs := []; rss := None |}))
    end ;;
  match exit with
  | inl r => ret r
  | inr (collection, info) =>
      let args := {| request_raw := rawPathname;
                     query_kept := (reqPath =? "/500");
                     props := collection;
                     css := css_list (mod_css pageModule) |} in
      html <- call (EvRender args) (renderPage pageModule args) ;;
      ret (Load200 html "text/html; charset=utf-8" (Some info))
  end.

(** *** The bundler fallback of a path no page answers *)

Definition transform_fallback (H : Host) (reqPath : string) : M LoadResult :=
  try_catch
    (result <- call (EvTransform reqPath) (transformRequest H reqPath) ;;
     let contentType := match mime_getType H reqPath with
                        | Some t => t
                        | None => "text/plain"
                        end in
     match result with
     | TNull => throw (mkError ("Unable to load " ++ reqPath))
     | TString s =>
         if Str.truthy s then ret (Load200 s contentType None)
         else throw (mkError ("Unable to load " ++ reqPath))
     | TObject code => ret (Load200 code contentType None)
     end)
    (fun err =>
       if err_failed err then ret (Load500 "unknown" err)
       else ret (Load404 err None)).

(** *** [load] *)

Definition request_path (pathname : string) : string :=
  if Str.endsWith pathname "/" then pathname ++ "index.html" else pathname.

(** [rawPathname || '/'] *)
Definition raw_or_root (rawPathname : option string) : string :=
  if opt_truthy rawPathname
  then match rawPathname with Some r => r | None => "/" end
  else "/".

(** The static file of the path, if the static server answers 200; an
    exception of the server is swallowed. *)
Definition static_probe (H : Host) (reqPath : string) : M (option LoadResult) :=
  try_catch
    (result <- call (EvStatic reqPath) (loadStaticFile H reqPath) ;;
     ret (if (statusCode result =? 200)%Z then Some result else None))
    (fun _ => ret None).

(** The lookups after the static files: the internal files, then the
    pages. *)
Definition dispatch (H : Host) (rawPathname : option string)
                    (pathname reqPath : string) : M LoadResult :=
  (* Astro internal *)
  if Str.startsWith reqPath (ASTRO_FRONTEND H) then
    call (EvInternal reqPath) (loadInternalFile H reqPath)
  else
    (* Astro pages *)
    searchResult <- call (EvSearch pathname)
                         (Returns (searchForPage pathname (pages H))) ;;
    match searchResult with
    | Missing => transform_fallback H reqPath
    | Moved pathname' => ret (Load301 pathname' None)
    | SearchOutsideModel p => ret (LoadOutsideModel p)
    | Found location _ currentPage =>
        try_catch (render_page H rawPathname reqPath location currentPage)
                  (fun err => ret (classify H reqPath rawPathname err))
    end.

Definition load (H : Host) (rawPathname : option string) : M LoadResult :=
  let pathname := decodedPathname H (raw_or_root rawPathname) in
  let reqPath := request_path pathname in
  (* static files *)
  static <- static_probe H reqPath ;;
  match static with
  | Some result => ret result
  | None => dispatch H rawPathname pathname reqPath
  end.

(** Run a computation from the empty trace. *)
Definition run {A} (m : M A) : list Event * Outcome A := m [].

End Runtime.

Arguments Returns {A} a.
Arguments LoadedNothing {Item}.
Arguments LoadedArray {Item} items.
Arguments LoadedOne {Item} item.
Arguments FData {Item Feed} loadData.
Arguments FRoutes {Item Feed} routes.
Arguments FPermalink {Item Feed} permalink.
Arguments FPageSize {Item Feed} pageSize.
Arguments FRss {Item Feed} createRSS.
Arguments FOther {Item Feed} key.
Arguments field_key {Item Feed} f.
Arguments get_data {Item Feed} c.
Arguments get_routes {Item Feed} c.
Arguments get_permalink {Item Feed} c.
Arguments get_pageSize {Item Feed} c.
Arguments get_rss {Item Feed} c.
Arguments Build_Rss {Item Feed}.
Arguments rss_feed {Item Feed}.
Arguments rss_data {Item Feed}.
Arguments Build_CollectionInfo {Item Feed}.
Arguments additionalURLs {Item Feed}.
Arguments rss {Item Feed}.
Arguments Build_CollectionResult {Item}.
Arguments c_start {Item}.
Arguments c_end {Item}.
Arguments c_total {Item}.
Arguments page_current {Item}.
Arguments page_size {Item}.
Arguments page_last {Item}.
Arguments url_current {Item}.
Arguments url_next {Item}.
Arguments url_prev {Item}.
Arguments c_params {Item}.
Arguments c_data {Item}.
Arguments Load200 {Item Feed}.
Arguments Load301 {Item Feed}.
Arguments Load404 {Item Feed}.
Arguments Load500 {Item Feed}.
Arguments LoadOutsideModel {Item Feed}.
Arguments statusCode {Item Feed} r.
Arguments Build_RenderArgs {Item}.
Arguments request_raw {Item}.
Arguments query_kept {Item}.
Arguments props {Item}.
Arguments css {Item}.
Arguments Build_PageModule {Item Feed}.
Arguments createCollection {Item Feed}.
Arguments renderPage {Item Feed}.
Arguments mod_css {Item Feed}.
Arguments Build_Host {Item Feed}.
Arguments pages {Item Feed}.
Arguments ASTRO_FRONTEND {Item Feed}.
Arguments decodedPathname {Item Feed}.
Arguments loadStaticFile {Item Feed}.
Arguments loadInternalFile {Item Feed}.
Arguments transformRequest {Item Feed}.
Arguments mime_getType {Item Feed}.
Arguments ssrLoadModule {Item Feed}.
Arguments notFoundCompileError {Item Feed}.
Arguments EvStatic {Item}.
Arguments EvInternal {Item}.
Arguments EvSearch {Item}.
Arguments EvTransform {Item}.
Arguments EvLoadModule {Item}.
Arguments EvCreateCollection {Item}.
Arguments EvPermalink {Item}.
Arguments EvData {Item}.
Arguments EvRender {Item}.
Arguments ret {Item A} a.
Arguments throw {Item A} e.
Arguments bind {Item A B} m k.
Arguments call {Item A} ev o.
Arguments try_catch {Item A} m h.
Arguments check_keys {Item} keys.
Arguments find_route {Item}.
Arguments Return {Item Feed} r.
Arguments Continue {Item Feed} collection info.
Arguments as_array {Item} loaded.
Arguments rss_payload {Item Feed} createRSS data.
Arguments paginate {Item Feed}.
Arguments resolve_params {Item Feed} reqPath currentPage decl.
Arguments collection_block {Item Feed} reqPath currentPage decl.
Arguments classify {Item Feed} H reqPath rawPathname err.
Arguments render_page {Item Feed} H rawPathname reqPath location currentPage.
Arguments transform_fallback {Item Feed} H reqPath.
Arguments static_probe {Item Feed} H reqPath.
Arguments dispatch {Item Feed} H rawPathname pathname reqPath.
Arguments load {Item Feed} H rawPathname.
Arguments run {Item A} m.

(** ** The [NotFoundError] branch of the [catch] clause

    What the field [notFoundCompileError] of a host does: the file the
    error names, the source file of the request, and the place in its text
    where the missing file is imported.  [getSrcPath] (build/util.js) and
    the reading of the file are taken as they come. *)

Module Diagnostic.

(** [s.indexOf(sub)]: the first position where [sub] occurs in [s]; [None]
    is [-1]. *)
Fixpoint indexOf (s sub : string) : option nat :=
  if Str.startsWith s sub then Some O
  else match s with
       | EmptyString => None
       | String _ t => option_map S (indexOf t sub)
       end.

(** Group 1 of the pattern "an opening parenthesis, one or more characters
    that are no closing parenthesis, a closing parenthesis", tried right
    after an opening parenthesis: the run up to the next closing
    parenthesis, if it is not empty and the parenthesis is there. *)
Definition paren_body (after : string) : option string :=
  match Str.span (fun c => negb (c =? ")")%char) after with
  | (String c body, String _ _) => Some (String c body)
  | _ => None
  end.

(** [text.match(...)] for that pattern: the leftmost match. *)
Fixpoint paren_group (text : string) : option string :=
  match text with
  | EmptyString => None
  | String c t =>
      if (c =? "(")%char then
        match paren_body t with
        | Some g => Some g
        | None => paren_group t
        end
      else paren_group t
  end.

(** [s.replace(/^\/_astro/, '')] *)
Definition strip_astro (s : string) : string :=
  if Str.startsWith s "/_astro"
  then substring 7 (String.length s - 7) s
  else s.

(** [s.replace(/\.proxy\.js$/, '')] *)
Definition strip_proxy (s : string) : string :=
  if Str.endsWith s ".proxy.js"
  then substring 0 (String.length s - 9) s
  else s.

(** [missingFile]: the file an error text names in parentheses, without
    the [/_astro] prefix and the [.proxy.js] suffix; [undefined] when there
    is none or nothing is left of it. *)
Definition missingFile (errText : string) : option string :=
  match paren_group errText with
  | Some g =>
      let file := strip_proxy (strip_astro g) in
      if Str.truthy file then Some file else None
  | None => None
  end.

(** [rawPathname.replace(/\/?$/, '/index.html')]: a final slash, or the
    end of the path, becomes [/index.html]. *)
Definition to_index_html (rawPathname : string) : string :=
  (if Str.endsWith rawPathname "/"
   then substring 0 (String.length rawPathname - 1) rawPathname
   else rawPathname) ++ "/index.html".

(** [distPath] *)
Definition distPath (rawPathname : string) : string :=
  if Str.truthy (extname rawPathname) then rawPathname
  else to_index_html rawPathname.

(** [segments]: the non-empty segments of the missing file. *)
Definition segments_of (missing : option string) : list string :=
  match missing with
  | Some file => filter Str.truthy (Str.split "/" file)
  | None => []
  end.

(** The [while (segments.length)] loop: the position of the first of
    the paths [segments.join('/')], each one segment shorter at the front
    than the one before, that occurs in the code; 0 when none does. *)
Fixpoint import_offset (code : string) (segments : list string) : nat :=
  match segments with
  | [] => O
  | _ :: rest =>
      match indexOf code (Str.join "/" segments) with
      | Some importMatch => importMatch
      | None => import_offset code rest
      end
  end.

(** The fields of the [CompileError]. *)
Record CompileErrorInfo := {
  ce_code : string;
  ce_filename : string;
  ce_start : nat;
  ce_message : string
}.

(** The diagnostic of the branch, for the text of the error and the raw
    path of the request.  [getSrcPath] names the source file of a path of
    the site, [readFile] gives its text when it exists. *)
Definition diagnose (getSrcPath : string -> string)
                    (readFile : string -> option string)
                    (errText rawPathname : string) : CompileErrorInfo :=
  let missing := missingFile errText in
  let srcFile := getSrcPath (distPath rawPathname) in
  let code := match readFile srcFile with
              | Some text => text
              | None => EmptyString
              end in
  {| ce_code := code;
     ce_filename := srcFile;
     ce_start := import_offset code (segments_of missing);
     ce_message :=
       "Could not find" ++
       match missing with
       | Some file => " " ++ Str.dquote ++ file ++ Str.dquote
       | None => " file"
       end |}.

End Diagnostic.

(** ** A small site, for the statements made on concrete requests *)

Module Example.

(** One collection template, [$tag.astro]. *)
Definition tag_pages : PagesDir := [["$tag.astro"]].

(** A directory whose name has a period, with an index page. *)
Definition versioned_pages : PagesDir := [["blog.v2"; "index.md"]].

Definition three_posts : list string := ["a"; "b"; "c"].

(** [{ data: () => posts, pageSize: size, rss: "feed" }] *)
Definition paged (posts : list string) (size : Z) : CreateCollection string string :=
  [FData (fun _ => Returns (LoadedArray posts)); FPageSize (Fin size); FRss "feed"].

(** The same declaration with a misspelt option in front. *)
Definition misspelt : CreateCollection string string :=
  FOther "foo" :: paged three_posts 1.

Definition page_of (decl : CreateCollection string string) : PageModule string string :=
  {| createCollection := Some (Returns decl);
     renderPage := fun _ => Returns "<html></html>";
     mod_css := CssOther |}.

(** A page whose rendering throws [err]. *)
Definition failing_page (err : JsError) : PageModule string string :=
  {| createCollection := None;
     renderPage := fun _ => Throws err;
     mod_css := CssOther |}.

(** A host with no static file, nothing for the bundler, and one module for
    every page. *)
Definition host (files : PagesDir) (m : PageModule string string) : Host string string :=
  {| pages := files;
     ASTRO_FRONTEND := "/_astro_frontend/";
     decodedPathname := fun raw => raw;
     loadStaticFile := fun _ => Throws (mkError "not a static file");
     loadInternalFile := fun _ => Throws (mkError "not an internal file");
     transformRequest := fun _ => Returns TNull;
     mime_getType := fun _ => None;
     ssrLoadModule := fun _ => Returns m;
     notFoundCompileError := fun err _ => err |}.

Definition tag_site (size : Z) : Host string string :=
  host tag_pages (page_of (paged three_posts size)).

(** A page [posts.astro] that is no collection template, but declares a
    collection of its own: no post yet, two a page. *)
Definition posts_pages : PagesDir := [["posts.astro"]].

Definition posts_site : Host string string :=
  host posts_pages (page_of (paged [] 2)).

(** [Object.assign(new ReferenceError("window is not defined"),
    { code: "parse-error" })] *)
Definition window_error_with_code : JsError :=
  {| err_class := ClsReferenceError; err_message := "window is not defined";
     err_code := Some "parse-error"; err_failed := false |}.

(** The error the engine raises for a use of [window]. *)
Definition window_error : JsError :=
  {| err_class := ClsReferenceError; err_message := "window is not defined";
     err_code := None; err_failed := false |}.

(** The props the page was rendered with, if it was. *)
Fixpoint rendered_props (tr : list (Event string))
  : option (CollectionResult string) :=
  match tr with
  | [] => None
  | EvRender args :: _ => props args
  | _ :: r => rendered_props r
  end.

End Example.

(** ** More of the small site *)

Module Site.

(** The example site with a style sheet the static server has. *)
Definition with_static : Host string string :=
  {| pages := Example.tag_pages;
     ASTRO_FRONTEND := "/_astro_frontend/";
     decodedPathname := fun raw => raw;
     loadStaticFile := fun _ => Returns (Load200 "body{}" "text/css" None);
     loadInternalFile := fun _ => Throws (mkError "not an internal file");
     transformRequest := fun _ => Returns TNull;
     mime_getType := fun _ => None;
     ssrLoadModule := fun _ =>
       Returns (Example.page_of (Example.paged Example.three_posts 1));
     notFoundCompileError := fun err _ => err |}.

(** A route of the tag collection, and the permalink of a route. *)
Definition tag_route (tag : string) : Params := [("tag", tag)].

Definition tag_url (route : Params) : string :=
  "/tag/" ++ match route with
             | (_, tag) :: _ => tag
             | [] => EmptyString
             end.

End Site.

(** ** Vocabulary of the statements *)

(** A parameter name with no character that means something in a pattern,
    no period and no slash: the names the statements on [loadCollection]
    are made for. *)
Definition plain_char (c : ascii) : bool :=
  negb (is_meta c || (c =? ".")%char || (c =? "/")%char).

Fixpoint plain (name : string) : bool :=
  match name with
  | EmptyString => true
  | String c t => plain_char c && plain t
  end.

(** The collection template of a parameter, [$name.astro]. *)
Definition template (name : string) : string := "$" ++ name ++ ".astro".

(** Group 1 of the route pattern on what follows [/name/]: the characters
    up to the first line terminator. *)
Definition first_line (rest : string) : string :=
  fst (Str.span (fun c => negb (Str.is_line_terminator c)) rest).

(** The records the request asks for: the page cut out of the data when the
    request carries a page number, all of the data otherwise. *)
Definition page_slice {Item : Type} (currentPage : option Z)
                      (declared : option Num) (data : list Item) : list Item :=
  if truthy_page currentPage then
    let pageSize := default_pageSize declared in
    let start := page_start pageSize (match currentPage with Some p => p | None => 0%Z end) in
    js_slice data start (page_stop pageSize start (Z.of_nat (length data)))
  else data.

(** A computation that, from any trace, only adds events satisfying [P],
    and whose value, when it returns one, satisfies [Q]. *)
Definition emits {Item A : Type} (P : Event Item -> Prop) (Q : A -> Prop)
                 (m : M Item A) : Prop :=
  forall tr,
    (exists evs, fst (m tr) = (tr ++ evs)%list /\ Forall P evs) /\
    (forall a, snd (m tr) = Returns a -> Q a).


(** A rendering is given records: the collection in its props, if there is
    one, has data. *)
Definition renders_records {Item : Type} (ev : Event Item) : Prop :=
  match ev with
  | EvRender args => forall c, props args = Some c -> c_data c <> []
  | _ => True
  end.

(** The [collectionInfo] an exit of the collection block carries towards
    the answer of [load]. *)
Definition exit_info {Item Feed : Type} (exit : BlockExit Item Feed)
  : option (CollectionInfo Item Feed) :=
  match exit with
  | Return (Load200 _ _ info) | Return (Load301 _ info)
  | Return (Load404 _ info) => info
  | Return _ => None
  | Continue _ info => Some info
  end.

(** The test of [routes.find]: the permalink is the request path, bare or
    with the page number. *)
Definition is_requested (reqPath : string) (currentPage : option Z)
                        (baseURL : string) : bool :=
  (baseURL =? reqPath) ||
  (baseURL ++ "/" ++ Str.of_Z (or_one currentPage) =? reqPath).

(** The routes of a declaration, none when [routes] is not given. *)
Definition routes_of {Item Feed : Type} (decl : CreateCollection Item Feed)
  : list Params :=
  match get_routes decl with
  | Some routes => routes
  | None => []
  end.

(** The URL of page [n] of a URL: its page segment rewritten, as the loop
    over the additional URLs does. *)
Definition page_url (url : string) (n : Z) : string :=
  replace_page_suffix url ("/" ++ Str.of_Z n).

(** What a call of [load] may be, given the request: the lookups take the
    paths of the request, the internal loader is for the paths under
    [ASTRO_FRONTEND] and the resolver for the others, the bundler is asked
    when the resolver finds nothing, a module is loaded when the resolver
    found its file, and the page is rendered with the raw URL, its query
    kept for [/500] only. *)
Definition expected_call {Item Feed : Type} (H : Host Item Feed)
                         (rawPathname : option string) (ev : Event Item) : Prop :=
  let pathname := decodedPathname H (raw_or_root rawPathname) in
  let reqPath := request_path pathname in
  match ev with
  | EvStatic path => path = reqPath
  | EvInternal path =>
      path = reqPath /\ Str.startsWith reqPath (ASTRO_FRONTEND H) = true
  | EvSearch path =>
      path = pathname /\ Str.startsWith reqPath (ASTRO_FRONTEND H) = false
  | EvTransform path =>
      path = reqPath /\ searchForPage pathname (pages H) = Missing
  | EvLoadModule location =>
      exists pn currentPage,
        searchForPage pathname (pages H) = Found location pn currentPage
  | EvRender args =>
      request_raw args = rawPathname /\ query_kept args = (reqPath =? "/500")
  | _ => True
  end.

(** A path with no character that is special in a pattern, the period
    apart. *)
Fixpoint pattern_free (s : string) : bool :=
  match s with
  | EmptyString => true
  | String c t => negb (is_meta c) && pattern_free t
  end.

(** A name of one path segment: no slash in it. *)
Fixpoint no_slash (s : string) : bool :=
  match s with
  | EmptyString => true
  | String c t => negb (c =? "/")%char && no_slash t
  end.

(** [w] is a text that [route], read as a pattern, matches from end to end:
    as long as the route, with the character of the route at each place,
    and any character but a line terminator where the route has a
    period. *)
Fixpoint fits (route w : string) : bool :=
  match route, w with
  | EmptyString, EmptyString => true
  | String r route', String c w' =>
      (if (r =? ".")%char then negb (Str.is_line_terminator c)
       else (r =? c)%char) && fits route' w'
  | _, _ => false
  end.



(** [sub] occurs in [s] at position [i]. *)
Definition occurs_at (s : string) (i : nat) (sub : string) : Prop :=
  exists pre post, s = pre ++ sub ++ post /\ String.length pre = i.

(** Strings of decimal digits. *)
Fixpoint all_digits (s : string) : bool :=
  match s with
  | EmptyString => true
  | String c t => Str.is_digit c && all_digits t
  end.

(** A URL that does not end in a page segment, a slash followed by
    digits. *)
Definition no_page_segment (u : string) : Prop :=
  forall x ds, ds <> EmptyString -> all_digits ds = true -> u <> x ++ "/" ++ ds.

(** * Properties *)

(** ** Strings and paths *)

Lemma append_String_assoc (a : string) (c : ascii) (b : string) :
  (a ++ String c EmptyString) ++ b = a ++ String c b.
Proof.
  induction a as [|x a IH]; simpl; [reflexivity | now rewrite IH].
Qed.

Lemma endsWith_inv (s suf : string) :
  Str.endsWith s suf = true -> exists p, s = p ++ suf.
Proof.
  induction s as [|c t IH]; cbn [Str.endsWith]; intros E.
  - rewrite orb_false_r in E. apply String.eqb_eq in E. subst suf.
    now exists EmptyString.
  - apply orb_true_iff in E as [E|E].
    + apply String.eqb_eq in E. subst suf. now exists EmptyString.
    + destruct (IH E) as [p ->]. now exists (String c p).
Qed.

Lemma endsWith_app (p suf : string) : Str.endsWith (p ++ suf) suf = true.
Proof.
  induction p as [|c p IH].
  - destruct suf; cbn [Str.endsWith append]; now rewrite String.eqb_refl.
  - cbn [Str.endsWith append]. rewrite IH. apply orb_true_r.
Qed.

Lemma split_not_nil (sep : ascii) (s : string) : Str.split sep s <> [].
Proof.
  destruct s as [|c t]; simpl; [discriminate|].
  destruct (c =? sep)%char; [discriminate|].
  destruct (Str.split sep t); discriminate.
Qed.

Lemma split_app_sep (sep : ascii) (a b : string) :
  Str.split sep (a ++ String sep b) = (Str.split sep a ++ Str.split sep b)%list.
Proof.
  induction a as [|c a IH]; simpl.
  - now rewrite Ascii.eqb_refl.
  - destruct (c =? sep)%char.
    + now rewrite IH.
    + rewrite IH.
      pose proof (split_not_nil sep a) as N.
      destruct (Str.split sep a); [contradiction | reflexivity].
Qed.

Lemma path_segments_app_slash (a b : string) :
  path_segments (a ++ String "/" b) = (path_segments a ++ path_segments b)%list.
Proof.
  unfold path_segments. now rewrite split_app_sep, filter_app.
Qed.

Lemma path_segments_leading_slash (x : string) :
  path_segments (String "/" x) = path_segments x.
Proof.
  exact (path_segments_app_slash EmptyString x).
Qed.

(** A second slash after a directory names the same file. *)
Lemma path_segments_extra_slash (base x : string) :
  base = EmptyString \/ (exists b, base = b ++ "/") ->
  path_segments (base ++ String "/" x) = path_segments (base ++ x).
Proof.
  intros [-> | [b ->]].
  - apply path_segments_leading_slash.
  - rewrite !append_String_assoc, !path_segments_app_slash.
    now rewrite path_segments_leading_slash.
Qed.

(** What [reqPath.substr(1)] is when [reqPath] ends in a slash. *)
Lemma substr1_of_slash_ended (reqPath : string) :
  Str.endsWith reqPath "/" = true ->
  Str.substr1 reqPath = EmptyString \/ (exists b, Str.substr1 reqPath = b ++ "/").
Proof.
  destruct reqPath as [|c t]; cbn [Str.endsWith Str.substr1]; intros E.
  - now left.
  - apply orb_true_iff in E as [E|E].
    + apply String.eqb_eq in E. injection E as _ ->. now left.
    + right. now apply endsWith_inv.
Qed.

Lemma existsSync_extra_slash (pages : PagesDir) (base x : string) :
  base = EmptyString \/ (exists b, base = b ++ "/") ->
  existsSync pages (base ++ String "/" x) = existsSync pages (base ++ x).
Proof.
  intros Hb. unfold existsSync. now rewrite path_segments_extra_slash.
Qed.

(** After a slash-ended path found no [index] page, the probe of
    [{base}/index.*] finds none either. *)
Lemma no_index_no_move (pages : PagesDir) (base : string) :
  base = EmptyString \/ (exists b, base = b ++ "/") ->
  findAnyPage [base ++ "index.astro"; base ++ "index.md"] pages = None ->
  findAnyPage [base ++ "/index.astro"; base ++ "/index.md"] pages = None.
Proof.
  intros Hb. cbn [findAnyPage].
  rewrite !(existsSync_extra_slash pages base _ Hb).
  now destruct (existsSync pages (base ++ "index.astro")),
               (existsSync pages (base ++ "index.md")).
Qed.

(** ** The page resolver *)

Lemma findAnyPage_two (pages : PagesDir) (a b : string) (location : Location) :
  findAnyPage [a; b] pages = Some location ->
  (location = PageFile a /\ existsSync pages a = true) \/
  (location = PageFile b /\ existsSync pages b = true).
Proof.
  cbn [findAnyPage].
  destruct (existsSync pages a) eqn:Ea.
  - intros [= <-]. now left.
  - destruct (existsSync pages b) eqn:Eb; [|discriminate].
    intros [= <-]. now right.
Qed.

Lemma slash_ended_not_reserved (reqPath : string) :
  Str.endsWith reqPath "/" = true -> search_reserved reqPath = Missing.
Proof.
  intros E. unfold search_reserved.
  destruct (reqPath =? "/500") eqn:Q; [|reflexivity].
  apply String.eqb_eq in Q. subst reqPath. discriminate E.
Qed.

(** A collection route always carries a page number, and never zero. *)
Lemma or_one_nonzero (n : option Z) : or_one n <> 0%Z.
Proof.
  destruct n as [v|]; simpl; [|discriminate].
  destruct (Z.eqb_spec v 0); [discriminate | assumption].
Qed.

(** C8 (as amended): a request path that ends in a slash is never answered
    by a redirect: it is served by [{path}index.astro] or [{path}index.md],
    or by a collection, or it is not found (the last case of the statement
    is a collection file whose name this model gives no pattern for).  A
    redirect is only given for a path that does not end in a slash, has no
    page of its own name and has a [{path}/index.astro] or
    [{path}/index.md]; the path may well have an extension. *)
Theorem C8_redirect_only_to_index_directory (reqPath : string) (pages : PagesDir) :
  (Str.endsWith reqPath "/" = true ->
   (exists ext, In ext ["astro"; "md"] /\
      searchForPage reqPath pages =
        Found (PageFile (Str.substr1 reqPath ++ "index." ++ ext)) reqPath None) \/
   (exists location p,
      loadCollection reqPath pages = Collection location p /\
      searchForPage reqPath pages = Found location reqPath (Some (or_one p))) \/
   searchForPage reqPath pages = Missing \/
   (exists pageURL, searchForPage reqPath pages = SearchOutsideModel pageURL))
  /\
  (forall pathname,
     searchForPage reqPath pages = Moved pathname ->
     Str.endsWith reqPath "/" = false /\
     pathname = reqPath ++ "/" /\
     findAnyPage [Str.substr1 reqPath ++ ".astro"; Str.substr1 reqPath ++ ".md"]
                 pages = None /\
     exists ext, In ext ["astro"; "md"] /\
       existsSync pages (Str.substr1 reqPath ++ "/index." ++ ext) = true).
Proof.
  split.
  - intros E. unfold searchForPage. rewrite E.
    destruct (findAnyPage _ pages) as [location|] eqn:F1.
    + left. apply findAnyPage_two in F1 as [[-> _]|[-> _]].
      * exists "astro". split; [now left | reflexivity].
      * exists "md". split; [right; now left | reflexivity].
    + right.
      rewrite (no_index_no_move pages _ (substr1_of_slash_ended _ E) F1).
      destruct (Str.truthy (extname reqPath)); cbn [negb].
      * right. left. now apply slash_ended_not_reserved.
      * destruct (loadCollection reqPath pages) as [|location p|pageURL] eqn:L.
        -- right. left. now apply slash_ended_not_reserved.
        -- left. now exists location, p.
        -- right. right. now exists pageURL.
  - intros pathname. unfold searchForPage.
    destruct (Str.endsWith reqPath "/") eqn:E.
    + destruct (findAnyPage _ pages) as [location|] eqn:F1; [discriminate|].
      rewrite (no_index_no_move pages _ (substr1_of_slash_ended _ E) F1).
      rewrite (slash_ended_not_reserved _ E).
      destruct (Str.truthy (extname reqPath)); cbn [negb]; [discriminate|].
      destruct (loadCollection reqPath pages); discriminate.
    + destruct (findAnyPage [_ ++ ".astro"; _] pages) as [location|] eqn:F1;
        [discriminate|].
      destruct (findAnyPage [_ ++ "/index.astro"; _] pages) as [location|] eqn:F2.
      * intros [= <-]. repeat split; [].
        apply findAnyPage_two in F2 as [[_ X]|[_ X]].
        -- exists "astro". split; [now left | exact X].
        -- exists "md". split; [right; now left | exact X].
      * unfold search_reserved.
        destruct (Str.truthy (extname reqPath)); cbn [negb].
        -- destruct (reqPath =? "/500"); discriminate.
        -- destruct (loadCollection reqPath pages); try discriminate.
           destruct (reqPath =? "/500"); discriminate.
Qed.

(** C8 (as stated) fails: [/blog.v2] has the extension [.v2], and with
    [blog.v2/index.md] on disk it is redirected to [/blog.v2/]. *)
Lemma C8_redirect_of_path_with_extension :
  ~ (forall reqPath pages pathname,
       searchForPage reqPath pages = Moved pathname ->
       extname reqPath = EmptyString).
Proof.
  intros claim.
  specialize (claim "/blog.v2" Example.versioned_pages "/blog.v2/" eq_refl).
  vm_compute in claim. discriminate claim.
Qed.

(** C8 on the example site: the redirect of [/blog.v2] is one of a path
    without a final slash, to the path with it, for an index file. *)
Lemma C8_redirect_example :
  Str.endsWith "/blog.v2" "/" = false /\
  "/blog.v2/" = "/blog.v2" ++ "/" /\
  findAnyPage ["blog.v2.astro"; "blog.v2.md"] Example.versioned_pages = None /\
  exists ext, In ext ["astro"; "md"] /\
    existsSync Example.versioned_pages ("blog.v2/index." ++ ext) = true.
Proof.
  exact (proj2 (C8_redirect_only_to_index_directory
                  "/blog.v2" Example.versioned_pages)
               "/blog.v2/" eq_refl).
Defined.

(** ** The collection matcher *)

Lemma append_nil_r (s : string) : s ++ EmptyString = s.
Proof.
  induction s as [|c s IH]; simpl; [reflexivity | now rewrite IH].
Qed.

Lemma length_append (a b : string) :
  String.length (a ++ b) = (String.length a + String.length b)%nat.
Proof.
  induction a as [|c a IH]; simpl; [reflexivity | now rewrite IH].
Qed.

Lemma plain_char_not_slash (c : ascii) :
  plain_char c = true -> (c =? "/")%char = false.
Proof.
  unfold plain_char. intros P. apply negb_true_iff in P.
  now apply orb_false_iff in P as [_ P].
Qed.

(** The greedy run before [.astro] is the whole name. *)
Lemma param_name_plain (name : string) :
  name <> EmptyString -> plain name = true ->
  param_name (name ++ ".astro") = Some (name, EmptyString).
Proof.
  induction name as [|c t IH]; [congruence|].
  intros _ P. cbn [plain] in P. apply andb_true_iff in P as [Pc Pt].
  cbn [append param_name]. rewrite (plain_char_not_slash c Pc).
  destruct t as [|d t'].
  - reflexivity.
  - now rewrite (IH ltac:(discriminate) Pt).
Qed.

Lemma replace_param_template (name : string) :
  name <> EmptyString -> plain name = true ->
  replace_param (template name) = name.
Proof.
  intros N P. unfold template. cbn [append replace_param].
  change ("$" =? "$")%char with true. cbn iota.
  rewrite (param_name_plain name N P). apply append_nil_r.
Qed.

Lemma glob_template (name : string) :
  name <> EmptyString -> glob_collections [[template name]] = [template name].
Proof.
  intros N. unfold glob_collections. cbn [filter existsb last].
  assert (H : hidden_entry (template name) = false) by reflexivity.
  rewrite H. cbn [orb negb andb].
  assert (C : is_collection_name (template name) = true).
  { unfold is_collection_name, template.
    apply andb_true_iff; split; [apply andb_true_iff; split|].
    - reflexivity.
    - change ("$" ++ name ++ ".astro") with (String "$" name ++ ".astro").
      apply endsWith_app.
    - cbn [append String.length]. rewrite length_append.
      destruct name; [congruence|].
      apply Nat.leb_le. cbn [String.length]. lia. }
  rewrite C. reflexivity.
Qed.

(** The atoms of a plain name are its characters, and they consume exactly
    the name. *)
Lemma eat_plain (name : string) :
  plain name = true ->
  exists atoms,
    atoms_of name = Some atoms /\
    (forall rest, eat_atoms atoms (name ++ rest) = Some rest) /\
    (forall s rest, eat_atoms atoms s = Some rest -> s = name ++ rest).
Proof.
  induction name as [|c t IH]; intros P.
  - exists []. split; [reflexivity | split].
    + intros rest. now destruct rest.
    + intros s rest E. destruct s; now injection E as <-.
  - cbn [plain] in P. apply andb_true_iff in P as [Pc Pt].
    destruct (IH Pt) as (atoms & A & Fwd & Bwd).
    unfold plain_char in Pc. apply negb_true_iff in Pc.
    apply orb_false_iff in Pc as [Pc _].
    apply orb_false_iff in Pc as [Pm Pd].
    exists (Lit c :: atoms). split; [|split].
    + cbn [atoms_of]. now rewrite Pm, A, Pd.
    + intros rest. cbn [append eat_atoms]. now rewrite Ascii.eqb_refl, Fwd.
    + intros s rest E. destruct s as [|d s']; [discriminate|].
      cbn [eat_atoms] in E. destruct (Ascii.eqb_spec c d) as [->|]; [|discriminate].
      cbn [append]. now rewrite (Bwd _ _ E).
Qed.




(** *** The route of a collection file in a directory *)

Lemma pattern_free_app (a b : string) :
  pattern_free (a ++ b) = pattern_free a && pattern_free b.
Proof.
  induction a as [|c a IH]; cbn [append pattern_free]; [reflexivity|].
  now rewrite IH, andb_assoc.
Qed.

(** The greedy run before [.astro] is the whole name, periods included. *)
Lemma param_name_segment (name : string) :
  name <> EmptyString -> no_slash name = true ->
  param_name (name ++ ".astro") = Some (name, EmptyString).
Proof.
  induction name as [|c t IH]; [congruence|].
  intros _ P. cbn [no_slash] in P. apply andb_true_iff in P as [Pc Pt].
  apply negb_true_iff in Pc.
  cbn [append param_name]. rewrite Pc.
  destruct t as [|d t'].
  - reflexivity.
  - now rewrite (IH ltac:(discriminate) Pt).
Qed.

(** The route of [dir/$name.astro] is [dir/name]. *)
Lemma replace_param_route (dir name : string) :
  name <> EmptyString -> no_slash name = true -> pattern_free dir = true ->
  replace_param (dir ++ template name) = dir ++ name.
Proof.
  intros N S. induction dir as [|c d IH]; intros F.
  - unfold template. cbn [append replace_param].
    change ("$" =? "$")%char with true. cbn iota.
    rewrite (param_name_segment name N S). apply append_nil_r.
  - cbn [pattern_free] in F. apply andb_true_iff in F as [Fc Fd].
    cbn [append replace_param].
    assert (D : (c =? "$")%char = false).
    { destruct (Ascii.eqb_spec c "$") as [->|]; [|reflexivity].
      vm_compute in Fc. discriminate Fc. }
    rewrite D. now rewrite (IH Fd).
Qed.

(** The atoms of a route consume exactly the texts that fit it. *)
Lemma eat_route (route : string) :
  pattern_free route = true ->
  exists atoms,
    atoms_of route = Some atoms /\
    (forall w rest, fits route w = true ->
                    eat_atoms atoms (w ++ rest) = Some rest) /\
    (forall s rest, eat_atoms atoms s = Some rest ->
                    exists w, s = w ++ rest /\ fits route w = true).
Proof.
  induction route as [|r t IH]; intros P.
  - exists []. split; [reflexivity | split].
    + intros [|c w] rest F; [now destruct rest | discriminate F].
    + intros s rest E. exists EmptyString.
      destruct s; injection E as <-; now split.
  - cbn [pattern_free] in P. apply andb_true_iff in P as [Pm Pt].
    apply negb_true_iff in Pm.
    destruct (IH Pt) as (atoms & A & Fwd & Bwd).
    exists ((if (r =? ".")%char then AnyChar else Lit r) :: atoms).
    split; [|split].
    + cbn [atoms_of]. now rewrite Pm, A.
    + intros [|c w] rest F; [discriminate F|].
      cbn [fits] in F. apply andb_true_iff in F as [Fc Fw].
      cbn [append]. destruct (r =? ".")%char; cbn [eat_atoms].
      * apply negb_true_iff in Fc. rewrite Fc. now apply Fwd.
      * rewrite Fc. now apply Fwd.
    + intros [|c s] rest E.
      * destruct (r =? ".")%char; discriminate E.
      * destruct (r =? ".")%char eqn:Rd; cbn [eat_atoms] in E.
        -- destruct (Str.is_line_terminator c) eqn:L; [discriminate E|].
           destruct (Bwd _ _ E) as (w & -> & F). exists (String c w).
           split; [reflexivity|]. cbn [fits]. now rewrite Rd, L, F.
        -- destruct (r =? c)%char eqn:Rc; [|discriminate E].
           destruct (Bwd _ _ E) as (w & -> & F). exists (String c w).
           split; [reflexivity|]. cbn [fits]. now rewrite Rd, Rc, F.
Qed.

(** What the pattern of a route matches: the route after a slash, then the
    end of the path, or a slash and the rest. *)
Lemma route_answers (route : string) :
  pattern_free route = true ->
  exists atoms,
    atoms_of route = Some atoms /\
    (forall w rest, fits route w = true ->
       match_route atoms ("/" ++ w ++ "/" ++ rest) =
         Matched (Some (first_line rest))) /\
    (forall w, fits route w = true ->
       match_route atoms ("/" ++ w) = Matched None) /\
    (forall url,
       (forall w, fits route w = true ->
          url <> "/" ++ w /\ forall rest, url <> "/" ++ w ++ "/" ++ rest) ->
       match_route atoms url = NoMatch).
Proof.
  intros P. destruct (eat_route route P) as (atoms & A & Fwd & Bwd).
  exists atoms. split; [exact A | split; [|split]].
  - intros w rest F. unfold match_route. cbn [append eat_atoms].
    change ("/" =? "/")%char with true. cbn iota.
    now rewrite (Fwd w _ F).
  - intros w F. unfold match_route. cbn [append eat_atoms].
    change ("/" =? "/")%char with true. cbn iota.
    rewrite <- (append_nil_r w) at 1. now rewrite (Fwd w _ F).
  - intros url No. unfold match_route.
    destruct url as [|c s]; [reflexivity|].
    cbn [eat_atoms]. destruct (Ascii.eqb_spec "/" c) as [<-|]; [|reflexivity].
    destruct (eat_atoms atoms s) as [rest|] eqn:E; [|reflexivity].
    destruct (Bwd _ _ E) as (w & -> & F).
    destruct (No w F) as [N1 N2].
    destruct rest as [|d rest']; [now rewrite append_nil_r in N1|].
    destruct (Ascii.eqb_spec d "/") as [->|D].
    + exfalso. now apply (N2 rest').
    + destruct d as [[] [] [] [] [] [] [] []]; try reflexivity.
      now contradiction D.
Qed.

(** The files listed before one that do not answer are passed over. *)
Lemma loadCollection_loop_skip (before rest : list string) (url : string) :
  Forall (fun other => loadCollection_loop [other] url = NoCollection) before ->
  loadCollection_loop (before ++ rest) url = loadCollection_loop rest url.
Proof.
  induction before as [|f before IH]; intros F; [reflexivity|].
  inversion F as [|? ? Ff Fb]; subst.
  cbn [app loadCollection_loop] in *.
  destruct (atoms_of (replace_param f)) as [atoms|]; [|discriminate Ff].
  destruct (match_route atoms url); [now apply IH | discriminate Ff].
Qed.

(** C2 (as amended): the matcher of a collection file is built from its
    path below the pages directory, [dir] and [$name.astro], with
    [$name.astro] replaced by the bare [name]: no wildcard stands for the
    parameter.  Read as a pattern, the route [dir ++ name] matches the texts
    that fit it, the same characters with any character for a period.  The
    first listed file answers whose route the request path has after a
    slash, followed by the end of the path (no page number) or by a slash
    and a rest (the page number is read from the last segment of the first
    line of the rest); any other request is left to the files listed after
    it.  No parameter value is given. *)
Theorem C2_template_routes (pages : PagesDir) (before after : list string)
        (dir name url : string) :
  name <> EmptyString -> no_slash name = true ->
  pattern_free (dir ++ name) = true ->
  glob_collections pages =
    (before ++ (dir ++ template name)%string :: after)%list ->
  Forall (fun other => loadCollection_loop [other] url = NoCollection) before ->
  let file := PageFile (dir ++ template name) in
  (forall w rest,
     fits (dir ++ name) w = true -> url = "/" ++ w ++ "/" ++ rest ->
     loadCollection url pages =
       Collection file (page_of_match (Some (first_line rest)))) /\
  (forall w,
     fits (dir ++ name) w = true -> url = "/" ++ w ->
     loadCollection url pages = Collection file None) /\
  ((forall w, fits (dir ++ name) w = true ->
      url <> "/" ++ w /\ forall rest, url <> "/" ++ w ++ "/" ++ rest) ->
   loadCollection url pages = loadCollection_loop after url).
Proof.
  intros N S P G B file.
  assert (Pd : pattern_free dir = true).
  { rewrite pattern_free_app in P. now apply andb_true_iff in P as [Pd _]. }
  destruct (route_answers (dir ++ name) P) as (atoms & A & Page & Bare & No).
  assert (L : loadCollection url pages =
              match match_route atoms url with
              | Matched group1 => Collection file (page_of_match group1)
              | NoMatch => loadCollection_loop after url
              end).
  { unfold loadCollection. rewrite G, (loadCollection_loop_skip _ _ _ B).
    cbn [loadCollection_loop].
    now rewrite (replace_param_route dir name N S Pd), A. }
  rewrite L. split; [|split].
  - intros w rest F ->. now rewrite (Page w rest F).
  - intros w F ->. now rewrite (Bare w F).
  - intros Other. now rewrite (No url Other).
Qed.

(** C2 on the template of the claim: [$tag.astro] answers
    [/tag/javascript/2], with page 2. *)
Lemma C2_tag_javascript_2 :
  loadCollection "/tag/javascript/2" Example.tag_pages =
    Collection (PageFile "$tag.astro") (Some 2%Z).
Proof.
  exact (proj1 (C2_template_routes Example.tag_pages [] [] "" "tag"
                  "/tag/javascript/2" ltac:(discriminate) eq_refl eq_refl
                  eq_refl (Forall_nil _))
               "tag" "javascript/2" eq_refl eq_refl).
Defined.

(** C2 (as stated) fails: [$tag.astro] does not answer [/javascript/2]. *)
Lemma C2_javascript_2_not_matched :
  ~ (exists location,
       loadCollection "/javascript/2" Example.tag_pages =
         Collection location (Some 2%Z)).
Proof.
  intros [location E]. vm_compute in E. discriminate E.
Qed.

(** A period in the name of a collection file is the pattern's "any
    character": [$tag.v2.astro] answers [/tagXv2] as it answers
    [/tag.v2]. *)
Lemma period_is_any_character :
  loadCollection "/tagXv2" [["$tag.v2.astro"]] =
    Collection (PageFile "$tag.v2.astro") None /\
  loadCollection "/tag.v2/3" [["$tag.v2.astro"]] =
    Collection (PageFile "$tag.v2.astro") (Some 3%Z).
Proof.
  split; vm_compute; reflexivity.
Qed.

(** The page number of a collection route is never zero. *)
Lemma found_page_nonzero reqPath pages location pathname p :
  searchForPage reqPath pages = Found location pathname (Some p) -> p <> 0%Z.
Proof.
  unfold searchForPage, search_reserved.
  destruct (if Str.endsWith reqPath "/" then _ else _); [discriminate|].
  destruct (findAnyPage _ pages); [discriminate|].
  destruct (Str.truthy (extname reqPath)); cbn [negb].
  - destruct (reqPath =? "/500"); discriminate.
  - destruct (loadCollection reqPath pages) as [|l cp|].
    + destruct (reqPath =? "/500"); discriminate.
    + intros [= _ _ <-]. apply or_one_nonzero.
    + discriminate.
Qed.

(** C3, on the request [/tag/-5]: the last segment parses as [-5], which is
    truthy, and the route is found with [currentPage = -5]. *)
Theorem C3_negative_page_number :
  searchForPage "/tag/-5" Example.tag_pages =
    Found (PageFile "$tag.astro") "/tag/-5" (Some (-5)%Z).
Proof.
  vm_compute. reflexivity.
Qed.

(** ** The collection block *)

Section BlockFacts.

Context {Item Feed : Type}.

Implicit Types (decl : CreateCollection Item Feed) (tr : list (Event Item)).

Lemma existsb_eqb_In (key : string) (l : list string) :
  existsb (String.eqb key) l = true <-> In key l.
Proof.
  rewrite existsb_exists. split.
  - intros (x & I & E). apply String.eqb_eq in E. now subst.
  - intros I. exists key. split; [assumption | apply String.eqb_refl].
Qed.

(** The check of the keys makes no call. *)
Lemma check_keys_trace (keys : list string) tr :
  fst (check_keys (Item := Item) keys tr) = tr.
Proof.
  induction keys as [|key rest IH]; cbn [check_keys]; [reflexivity|].
  now destruct (negb _).
Qed.

Lemma check_keys_unknown (keys : list string) tr :
  (exists key, In key keys /\ ~ In key VALID_KEYS) ->
  exists key,
    In key keys /\ ~ In key VALID_KEYS /\
    check_keys (Item := Item) keys tr =
      (tr, Throws (mkError (unknown_option_message key))).
Proof.
  induction keys as [|k rest IH]; intros (key & I & V); [contradiction|].
  cbn [check_keys].
  destruct (existsb (String.eqb k) VALID_KEYS) eqn:E; cbn [negb].
  - destruct I as [->|I].
    + apply existsb_eqb_In in E. contradiction.
    + destruct IH as (key' & I' & V' & R); [now exists key|].
      exists key'. repeat split; [now right | assumption | exact R].
  - exists k. repeat split; [now left|].
    intros I'. apply existsb_eqb_In in I'. congruence.
Qed.

(** C7: a declaration with a key outside [data], [routes], [permalink],
    [pageSize], [rss] makes the block throw the error that names the first
    such key, before any call: the trace is left as it was, so neither
    [data()] nor [permalink()] has been invoked. *)
Theorem C7_unknown_option_throws_before_loading
        (reqPath : string) (currentPage : option Z) decl tr :
  (exists f, In f decl /\ ~ In (field_key f) VALID_KEYS) ->
  exists key,
    In key (map field_key decl) /\ ~ In key VALID_KEYS /\
    collection_block reqPath currentPage decl tr =
      (tr, Throws (mkError (unknown_option_message key))).
Proof.
  intros (f & I & V).
  destruct (check_keys_unknown (map field_key decl) tr) as (key & I' & V' & R).
  { exists (field_key f). split; [now apply in_map | assumption]. }
  exists key. repeat split; [assumption..|].
  unfold collection_block, bind. now rewrite R.
Qed.

(** What a block that returns has done: the keys were known, [data] was
    there and gave something, and the exit is [paginate] on it. *)
Lemma collection_block_returns reqPath currentPage decl tr tr' exit :
  collection_block reqPath currentPage decl tr = (tr', Returns exit) ->
  exists loadData requestedParams urls tr1 loaded,
    get_data decl = Some loadData /\
    resolve_params reqPath currentPage decl tr = (tr1, Returns (requestedParams, urls)) /\
    tr' = (tr1 ++ [EvData (params_or_empty requestedParams)])%list /\
    loadData (params_or_empty requestedParams) = Returns loaded /\
    loaded <> LoadedNothing /\
    exit = paginate reqPath currentPage (get_pageSize decl) (get_rss decl)
                    requestedParams urls (as_array loaded).
Proof.
  unfold collection_block, bind.
  pose proof (check_keys_trace (map field_key decl) tr) as T.
  destruct (check_keys (map field_key decl) tr) as [tr0 [[]|e]]; [|discriminate].
  cbn [fst] in T. subst tr0.
  destruct (get_data decl) as [loadData|]; [|discriminate].
  destruct (resolve_params reqPath currentPage decl tr)
    as [tr1 [[requestedParams urls]|e]]; [|discriminate].
  unfold call.
  destruct (loadData (params_or_empty requestedParams)) as [loaded|e] eqn:L;
    [|discriminate].
  intros R.
  exists loadData, requestedParams, urls, tr1, loaded.
  destruct loaded; [discriminate R| |];
    injection R as <- <-; repeat split; try assumption; discriminate.
Qed.

End BlockFacts.

(** C7 on the example: the misspelt option [foo] is reported and nothing is
    loaded. *)
Lemma C7_misspelt_option :
  exists key,
    In key (map field_key Example.misspelt) /\ ~ In key VALID_KEYS /\
    collection_block "/tag" (Some 1%Z) Example.misspelt [] =
      ([], Throws (mkError (unknown_option_message key))).
Proof.
  apply (C7_unknown_option_throws_before_loading "/tag" (Some 1%Z)
           Example.misspelt []).
  exists (FOther "foo"). split; [now left|].
  cbn. intros [E|[E|[E|[E|[E|[]]]]]]; discriminate E.
Defined.

(** ** Pagination *)

Lemma ceil_div_bounds (a b : Z) :
  (0 < b)%Z -> (b * (ceil_div a b - 1) < a <= b * ceil_div a b)%Z.
Proof.
  intros B. unfold ceil_div.
  pose proof (Z.div_mod (- a) b ltac:(lia)) as D.
  pose proof (Z.mod_pos_bound (- a) b B) as M.
  nia.
Qed.

(** Within the array, [slice] is "skip [a], take [b - a]". *)
Lemma js_slice_window {A : Type} (l : list A) (a b : Z) :
  (0 <= a <= b)%Z ->
  js_slice l a b = firstn (Z.to_nat (b - a)) (skipn (Z.to_nat a) l).
Proof.
  intros [A0 AB]. unfold js_slice.
  destruct (Z.ltb_spec a 0); [lia|]. destruct (Z.ltb_spec b 0); [lia|].
  set (len := Z.of_nat (length l)).
  destruct (Z.le_gt_cases a len) as [Le|Gt].
  - rewrite (Z.min_l a len Le).
    destruct (Z.le_gt_cases b len) as [Lb|Gb].
    + now rewrite (Z.min_l b len Lb).
    + rewrite (Z.min_r b len ltac:(lia)).
      rewrite !firstn_all2; [reflexivity | |]; rewrite length_skipn; subst len; lia.
  - rewrite (Z.min_r a len ltac:(lia)), (Z.min_r b len ltac:(lia)).
    rewrite !skipn_all2; [now rewrite !firstn_nil | |]; subst len; lia.
Qed.

Lemma set_add_incl (x : string) (s : list string) : incl s (set_add x s).
Proof.
  unfold set_add. destruct (existsb _ s); [apply incl_refl|].
  now apply incl_appl, incl_refl.
Qed.

Lemma forEach_add_incl (f : string -> string) (fuel i : nat) (s : list string) :
  incl s (forEach_add f fuel i s).
Proof.
  revert i s. induction fuel as [|k IH]; intros i s; cbn [forEach_add].
  - apply incl_refl.
  - destruct (nth_error s i); [|apply incl_refl].
    eapply incl_tran; [apply set_add_incl | apply IH].
Qed.

Lemma add_pages_from_incl (reqPath : string) (n : Z) (rounds : nat)
                          (urls : list string) :
  incl urls (add_pages_from reqPath n rounds urls).
Proof.
  revert n urls. induction rounds as [|k IH]; intros n urls; cbn [add_pages_from].
  - apply incl_refl.
  - eapply incl_tran; [|apply IH].
    unfold add_page_urls. destruct urls; [apply set_add_incl|].
    apply forEach_add_incl.
Qed.

Section PaginateFacts.

Context {Item Feed : Type}.

Implicit Types (decl : CreateCollection Item Feed) (tr : list (Event Item))
         (data : list Item) (createRSS : option Feed).

(** A request with a page number is never redirected to page 1. *)
Lemma paginate_no_redirect reqPath p declared createRSS requestedParams urls data
      location info :
  p <> 0%Z ->
  paginate reqPath (Some p) declared createRSS requestedParams urls data
    <> Return (Load301 location info).
Proof.
  intros P. unfold paginate, truthy_page, truthy_num.
  destruct (Z.eqb_spec p 0); [contradiction|]. cbn [negb].
  destruct (js_slice data _ _); discriminate.
Qed.

(** Without a page number, a declared page size redirects to page 1, with
    the URLs and the feed gathered so far. *)
Lemma paginate_redirect reqPath currentPage declared createRSS requestedParams
      urls data :
  truthy_page currentPage = false -> declares_pageSize declared = true ->
  paginate reqPath currentPage declared createRSS requestedParams urls data =
    Return (Load301 (reqPath ++ "/1")
                    (Some {| additionalURLs := urls;
                             rss := rss_payload createRSS data |})).
Proof.
  intros T D. unfold paginate. now rewrite T, D.
Qed.

(** What [paginate] gives when it does not redirect: not found for an empty
    slice, the collection with the slice otherwise. *)
Lemma paginate_slice reqPath currentPage declared createRSS requestedParams
      urls data :
  truthy_page currentPage = true \/ declares_pageSize declared = false ->
  let exit := paginate reqPath currentPage declared createRSS requestedParams urls data in
  let slice := page_slice currentPage declared data in
  exists urls',
    incl urls urls' /\
    let info := {| additionalURLs := urls'; rss := rss_payload createRSS data |} in
    (slice = [] -> exit = Return (Load404 (mkError "Not Found") (Some info))) /\
    (slice <> [] -> exists c, exit = Continue c info /\ c_data c = slice).
Proof.
  intros G. unfold paginate, page_slice.
  destruct (truthy_page currentPage) eqn:T.
  - eexists. split; [apply add_pages_from_incl|]. cbn zeta.
    destruct (js_slice data _ _) eqn:S.
    + split; [reflexivity | congruence].
    + split; [discriminate|]. intros _. eexists. split; reflexivity.
  - destruct G as [G|G]; [discriminate|]. rewrite G.
    exists urls. split; [apply incl_refl|]. cbn zeta.
    destruct data.
    + split; [reflexivity | congruence].
    + split; [discriminate|]. intros _. eexists. split; reflexivity.
Qed.

Lemma paginate_data_nonempty reqPath currentPage declared createRSS
      requestedParams urls data c info :
  paginate reqPath currentPage declared createRSS requestedParams urls data
    = Continue c info ->
  c_data c <> [].
Proof.
  unfold paginate. destruct (truthy_page currentPage).
  - destruct (js_slice data _ _) eqn:S; [discriminate|].
    intros [= <- _]. discriminate.
  - destruct (declares_pageSize declared); [discriminate|].
    destruct data; [discriminate|]. now intros [= <- _].
Qed.

(** C5 (as amended): a block that comes to an end never goes on to render
    a collection with no record.  For a request with a page number, an
    empty slice ends the block with the 404 result, which carries the URLs
    of the permalinks with the pages 1 to [page.last] added to them, and
    the feed with all of the data.  A request without a page number is
    redirected to page 1 when a page size is declared, also when there is
    no record at all; when none is declared, no record ends the block with
    the 404 result, which carries the URLs of the permalinks and the
    feed. *)
Theorem C5_empty_slice_is_not_found reqPath currentPage decl tr tr' exit :
  collection_block reqPath currentPage decl tr = (tr', Returns exit) ->
  (forall c info, exit = Continue c info -> c_data c <> []) /\
  exists loadData requestedParams urls tr1 loaded,
    get_data decl = Some loadData /\
    resolve_params reqPath currentPage decl tr =
      (tr1, Returns (requestedParams, urls)) /\
    loadData (params_or_empty requestedParams) = Returns loaded /\
    let data := as_array loaded in
    let feed := rss_payload (get_rss decl) data in
    let not_found info := Return (Load404 (mkError "Not Found") (Some info)) in
    if truthy_page currentPage then
      let slice := page_slice currentPage (get_pageSize decl) data in
      let last := last_page (default_pageSize (get_pageSize decl))
                            (Z.of_nat (length data)) in
      let info := {| additionalURLs :=
                       add_pages_from reqPath 1 (Z.to_nat last) urls;
                     rss := feed |} in
      (slice = [] -> exit = not_found info) /\
      (slice <> [] -> exists c, exit = Continue c info /\ c_data c = slice)
    else
      let info := {| additionalURLs := urls; rss := feed |} in
      if declares_pageSize (get_pageSize decl) then
        exit = Return (Load301 (reqPath ++ "/1") (Some info))
      else
        (data = [] -> exit = not_found info) /\
        (data <> [] -> exists c, exit = Continue c info /\ c_data c = data).
Proof.
  intros R.
  destruct (collection_block_returns _ _ _ _ _ _ R)
    as (loadData & requestedParams & urls & tr1 & loaded & D & RP & _ & L & _ & ->).
  split.
  - intros c info E. now apply paginate_data_nonempty in E.
  - exists loadData, requestedParams, urls, tr1, loaded.
    split; [exact D | split; [exact RP | split; [exact L|]]].
    cbv zeta. unfold paginate, page_slice.
    destruct (truthy_page currentPage).
    + destruct (js_slice (as_array loaded) _ _) eqn:S.
      * split; [reflexivity | congruence].
      * split; [discriminate|]. intros _. eexists. split; reflexivity.
    + destruct (declares_pageSize (get_pageSize decl)); [reflexivity|].
      destruct (as_array loaded).
      * split; [reflexivity | congruence].
      * split; [discriminate|]. intros _. eexists. split; reflexivity.
Qed.

(** C4 (as amended): for a request with page number [p], page size [N] and
    [L] records, the collection has [start = (p-1)*N] (0 when [N] is
    [Infinity]), [end = min(start+N, L) - 1], the index of its last record,
    [page.last = ceil(L/N)] (0 when [N] is [Infinity]), and as [data] the
    slice of the records from [start] up to, not including, [end + 1]. *)
Theorem C4_page_bounds reqPath p decl tr tr' c info :
  p <> 0%Z ->
  collection_block reqPath (Some p) decl tr = (tr', Returns (Continue c info)) ->
  exists loadData loaded,
    get_data decl = Some loadData /\
    loadData (params_or_empty (c_params c)) = Returns loaded /\
    let data := as_array loaded in
    let N := default_pageSize (get_pageSize decl) in
    let L := Z.of_nat (length data) in
    page_current c = p /\ page_size c = N /\ c_total c = L /\
    c_start c = match N with Fin n => ((p - 1) * n)%Z | Infinity => 0%Z end /\
    c_end c = (match N with
               | Fin n => Z.min (c_start c + n) L
               | Infinity => L
               end - 1)%Z /\
    page_last c = match N with Fin n => ceil_div L n | Infinity => 0%Z end /\
    c_data c = js_slice data (c_start c) (c_end c + 1).
Proof.
  intros P R.
  destruct (collection_block_returns _ _ _ _ _ _ R)
    as (loadData & requestedParams & urls & tr1 & loaded & D & _ & _ & L & _ & E).
  exists loadData, loaded.
  unfold paginate, truthy_page, truthy_num in E.
  destruct (Z.eqb_spec p 0); [contradiction|]. cbn [negb] in E.
  destruct (js_slice (as_array loaded) _ _) eqn:S; [discriminate|].
  injection E as -> _. cbn.
  repeat split; try assumption; try reflexivity.
  rewrite <- S. f_equal. unfold page_stop, page_start. lia.
Qed.

End PaginateFacts.

(** ** The example site *)

(** C4 on page 2 of the three posts, one post a page. *)
Lemma C4_page_2_of_3 :
  exists c info tr',
    collection_block "/tag/2" (Some 2%Z) (Example.paged Example.three_posts 1) []
      = (tr', Returns (Continue c info)) /\
    c_start c = 1%Z /\ c_end c = 1%Z /\ page_last c = 3%Z /\ c_data c = ["b"].
Proof.
  eexists _, _, _. split; [vm_compute; reflexivity|].
  destruct (C4_page_bounds "/tag/2" 2 (Example.paged Example.three_posts 1) [] _ _ _
              ltac:(discriminate) eq_refl)
    as (loadData & loaded & D & L & _ & _ & _ & S & E & La & Da).
  injection D as <-. injection L as <-.
  split; [exact S | split; [exact E | split; [exact La | exact Da]]].
Defined.

(** C4 (as stated) fails: with three posts, two a page, page 1 has
    [end = 1], the index of its last record, and not [min(0 + 2, 3) = 2]. *)
Lemma C4_end_is_inclusive :
  exists c info tr',
    collection_block "/tag/1" (Some 1%Z) (Example.paged Example.three_posts 2) []
      = (tr', Returns (Continue c info)) /\
    c_end c <> Z.min (c_start c + 2) 3.
Proof.
  eexists _, _, _. split; [vm_compute; reflexivity|].
  cbn. discriminate.
Qed.

(** C5 on page 7 of the three posts: not found, with the page URLs and the
    feed. *)
Lemma C5_page_7_of_3 :
  snd (run (collection_block "/tag/7" (Some 7%Z)
              (Example.paged Example.three_posts 1))) =
    Returns (Return (Load404 (mkError "Not Found")
               (Some {| additionalURLs := ["/tag/1"; "/tag/2"; "/tag/3"];
                        rss := Some {| rss_feed := "feed";
                                       rss_data := Example.three_posts |} |}))).
Proof.
  destruct (C5_empty_slice_is_not_found "/tag/7" (Some 7%Z)
              (Example.paged Example.three_posts 1) [] _ _ eq_refl)
    as (_ & loadData & requestedParams & urls & tr1 & loaded & D & RP & L & E).
  injection D as <-. injection L as <-. injection RP as _ <- <-.
  exact (f_equal Returns (proj1 E eq_refl)).
Defined.

(** C5 (as stated) fails: the page [posts.astro] declares a collection with
    a page size and has no post.  The request [/posts] carries no page
    number, and is answered with the redirect to [/posts/1], not with the
    404 result. *)
Lemma C5_empty_dataset_is_redirected :
  searchForPage "/posts" Example.posts_pages =
    Found (PageFile "posts.astro") "/posts" None /\
  run (load Example.posts_site (Some "/posts")) =
    ([EvStatic "/posts"; EvSearch "/posts";
      EvLoadModule (PageFile "posts.astro"); EvCreateCollection; EvData []],
     Returns (Load301 "/posts/1"
                (Some {| additionalURLs := [];
                         rss := Some {| rss_feed := "feed";
                                        rss_data := [] |} |}))).
Proof.
  split; vm_compute; reflexivity.
Qed.

(** C1, on the request [/tag] of a collection with [pageSize: 2]: the page
    resolver gives the route [currentPage = 1], so the request is paginated
    and rendered (status 200), not redirected to [/tag/1]. *)
Theorem C1_collection_route_is_not_redirected :
  searchForPage "/tag" Example.tag_pages =
    Found (PageFile "$tag.astro") "/tag" (Some 1%Z) /\
  snd (run (load (Example.tag_site 2) (Some "/tag"))) =
    Returns (Load200 "<html></html>" "text/html; charset=utf-8"
               (Some {| additionalURLs := ["/tag/1"; "/tag/2"];
                        rss := Some {| rss_feed := "feed";
                                       rss_data := Example.three_posts |} |})).
Proof.
  split; vm_compute; reflexivity.
Qed.

(** C6, on the request [/tag/2/] (three posts, one a page): the page is
    rendered as page 2 with [url.prev = /tag/2/index.html], a path the page
    resolver does not find, and not a path that resolves to page 1. *)
Theorem C6_prev_of_slash_ended_request :
  option_map (fun c => (page_current c, url_current c, url_prev c))
             (Example.rendered_props
                (fst (run (load (Example.tag_site 1) (Some "/tag/2/"))))) =
    Some (2%Z, "/tag/2/index.html", Some "/tag/2/index.html") /\
  searchForPage "/tag/2/index.html" Example.tag_pages = Missing.
Proof.
  split; vm_compute; reflexivity.
Qed.

(** On the request [/tag/2], the links do lead to pages 3 and 1. *)
Lemma links_of_canonical_request :
  option_map (fun c => (url_next c, url_prev c))
             (Example.rendered_props
                (fst (run (load (Example.tag_site 1) (Some "/tag/2"))))) =
    Some (Some "/tag/3", Some "/tag") /\
  searchForPage "/tag/3" Example.tag_pages =
    Found (PageFile "$tag.astro") "/tag/3" (Some 3%Z) /\
  searchForPage "/tag" Example.tag_pages =
    Found (PageFile "$tag.astro") "/tag" (Some 1%Z).
Proof.
  repeat split; vm_compute; reflexivity.
Qed.

(** ** The dispatcher *)

Section TraceFacts.

Context {Item Feed : Type}.

Implicit Types (P : Event Item -> Prop) (tr : list (Event Item))
         (H : Host Item Feed).

Lemma emits_ret {A} P (Q : A -> Prop) (a : A) : Q a -> emits P Q (ret a).
Proof.
  intros Qa tr. split.
  - exists []. now rewrite app_nil_r.
  - now intros b [= <-].
Qed.

Lemma emits_throw {A} P (Q : A -> Prop) (e : JsError) : emits P Q (throw e).
Proof.
  intros tr. split.
  - exists []. now rewrite app_nil_r.
  - discriminate.
Qed.

Lemma emits_call {A} P (Q : A -> Prop) (ev : Event Item) (o : Outcome A) :
  P ev -> (forall a, o = Returns a -> Q a) -> emits P Q (call ev o).
Proof.
  intros Pev Qo tr. split.
  - exists [ev]. split; [reflexivity | now constructor].
  - exact Qo.
Qed.

Lemma emits_bind {A B} P (Q1 : A -> Prop) (Q2 : B -> Prop)
      (m : M Item A) (k : A -> M Item B) :
  emits P Q1 m -> (forall a, Q1 a -> emits P Q2 (k a)) ->
  emits P Q2 (bind m k).
Proof.
  intros Hm Hk tr. unfold bind.
  destruct (Hm tr) as [(evs & E & F) Q].
  destruct (m tr) as [tr1 [a|e]]; cbn [fst snd] in *.
  - destruct (Hk a (Q a eq_refl) tr1) as [(evs' & E' & F') Q'].
    split; [|exact Q'].
    exists (evs ++ evs')%list. rewrite E', E, app_assoc.
    split; [reflexivity | now apply Forall_app].
  - split; [now exists evs | discriminate].
Qed.

Lemma emits_try_catch {A} P (Q : A -> Prop) (m : M Item A)
      (h : JsError -> M Item A) :
  emits P Q m -> (forall e, emits P Q (h e)) -> emits P Q (try_catch m h).
Proof.
  intros Hm Hh tr. unfold try_catch.
  destruct (Hm tr) as [(evs & E & F) Qm].
  destruct (m tr) as [tr1 [a|e]]; cbn [fst snd] in *.
  - split; [now exists evs | exact Qm].
  - destruct (Hh e tr1) as [(evs' & E' & F') Q'].
    split; [|exact Q'].
    exists (evs ++ evs')%list. rewrite E', E, app_assoc.
    split; [reflexivity | now apply Forall_app].
Qed.

Lemma emits_check_keys P (keys : list string) :
  emits P (fun _ => True) (check_keys keys).
Proof.
  induction keys as [|key rest IH]; cbn [check_keys].
  - now apply emits_ret.
  - destruct (negb _); [apply emits_throw | exact IH].
Qed.

Lemma emits_find_route P permalink reqPath currentPage routes urls :
  (forall p, P (EvPermalink p)) ->
  emits P (fun _ => True)
        (find_route permalink reqPath currentPage routes urls).
Proof.
  intros Pp. revert urls.
  induction routes as [|p rest IH]; intros urls; cbn [find_route].
  - now apply emits_ret.
  - eapply emits_bind with (Q1 := fun _ => True).
    + now apply emits_call.
    + intros baseURL _. destruct (_ || _); [now apply emits_ret | apply IH].
Qed.

Lemma paginate_url_current reqPath currentPage declared (createRSS : option Feed)
      requestedParams urls (data : list Item) c info :
  paginate reqPath currentPage declared createRSS requestedParams urls data
    = Continue c info ->
  url_current c = reqPath.
Proof.
  unfold paginate. destruct (truthy_page currentPage).
  - destruct (js_slice data _ _); [discriminate|]. now intros [= <- _].
  - destruct (declares_pageSize declared); [discriminate|].
    destruct data; [discriminate|]. now intros [= <- _].
Qed.

(** The calls of [load], for any property of events that holds of the
    lookups on the paths of the request, of the calls into the module, and
    of a rendering whose collection has the request path as its current URL
    and has data. *)
Section Calls.

Variables (P : Event Item -> Prop) (pathname reqPath : string).

Hypotheses
  (P_static : P (EvStatic reqPath))
  (P_internal : P (EvInternal reqPath))
  (P_search : P (EvSearch pathname))
  (P_transform : P (EvTransform reqPath))
  (P_module : forall location, P (EvLoadModule location))
  (P_create : P EvCreateCollection)
  (P_permalink : forall params, P (EvPermalink params))
  (P_data : forall params, P (EvData params))
  (P_render : forall args,
      (forall c, props args = Some c ->
                 url_current c = reqPath /\ c_data c <> []) ->
      P (EvRender args)).

Lemma emits_collection_block currentPage (decl : CreateCollection Item Feed) :
  emits P (fun exit => forall c info,
                         exit = Continue c info ->
                         url_current c = reqPath /\ c_data c <> [])
        (collection_block reqPath currentPage decl).
Proof.
  unfold collection_block.
  eapply emits_bind; [apply emits_check_keys|]. intros _ _.
  destruct (get_data decl) as [loadData|]; [|apply emits_throw].
  eapply emits_bind with (Q1 := fun _ => True).
  - unfold resolve_params.
    destruct (get_routes decl), (get_permalink decl);
      try apply emits_throw; [now apply emits_find_route | now apply emits_ret].
  - intros [requestedParams urls] _.
    eapply emits_bind with (Q1 := fun _ => True); [now apply emits_call|].
    intros loaded _.
    destruct loaded; [apply emits_throw | |];
      apply emits_ret; intros c info E;
      (split; [now apply paginate_url_current in E
              | now apply paginate_data_nonempty in E]).
Qed.

Lemma emits_render_page H rawPathname location currentPage :
  emits P (fun _ => True)
        (render_page H rawPathname reqPath location currentPage).
Proof.
  unfold render_page.
  eapply emits_bind with (Q1 := fun _ => True);
    [now apply emits_call|]. intros pageModule _.
  eapply emits_bind
    with (Q1 := fun exit => forall c info,
                  exit = inr (Some c, info) ->
                  url_current c = reqPath /\ c_data c <> []).
  - destruct (createCollection pageModule) as [created|].
    + eapply emits_bind with (Q1 := fun _ => True); [now apply emits_call|].
      intros decl _.
      eapply emits_bind; [apply emits_collection_block|].
      intros b Qb. apply emits_ret.
      destruct b as [r|collection info']; [discriminate|].
      intros c info [= -> ->]. now apply (Qb c info).
    + apply emits_ret. discriminate.
  - intros [r|[collection info]] Qe; [now apply emits_ret|].
    eapply emits_bind with (Q1 := fun _ => True).
    + apply emits_call; [|trivial].
      apply P_render. cbn. intros c ->. now apply (Qe c info).
    + intros html _. now apply emits_ret.
Qed.

Lemma emits_transform_fallback H :
  emits P (fun _ => True) (transform_fallback H reqPath).
Proof.
  unfold transform_fallback. apply emits_try_catch.
  - eapply emits_bind with (Q1 := fun _ => True);
      [now apply emits_call|].
    intros [|s|code] _; try (now apply emits_ret); try apply emits_throw.
    destruct (Str.truthy s); [now apply emits_ret | apply emits_throw].
  - intros e. destruct (err_failed e); now apply emits_ret.
Qed.

Lemma emits_dispatch H rawPathname :
  emits P (fun _ => True) (dispatch H rawPathname pathname reqPath).
Proof.
  unfold dispatch.
  destruct (Str.startsWith reqPath (ASTRO_FRONTEND H)).
  - now apply emits_call.
  - eapply emits_bind with (Q1 := fun _ => True);
      [now apply emits_call|].
    intros [location pn currentPage|pn| |p] _; try (now apply emits_ret).
    + apply emits_try_catch; [apply emits_render_page|].
      intros e. now apply emits_ret.
    + apply emits_transform_fallback.
Qed.

Lemma emits_static_probe H :
  emits P (fun _ => True) (static_probe H reqPath).
Proof.
  unfold static_probe. apply emits_try_catch.
  - eapply emits_bind with (Q1 := fun _ => True);
      [now apply emits_call|].
    intros result _. now apply emits_ret.
  - intros e. now apply emits_ret.
Qed.

(** [load], once its two paths are named. *)
Lemma emits_load_on H rawPathname :
  emits P (fun _ => True)
        (bind (static_probe H reqPath)
              (fun static =>
                 match static with
                 | Some result => ret result
                 | None => dispatch H rawPathname pathname reqPath
                 end)).
Proof.
  eapply emits_bind; [apply emits_static_probe|].
  intros [result|] _; [now apply emits_ret | apply emits_dispatch].
Qed.

End Calls.

(** Whatever the request, a page is never rendered with a collection that
    has no record: a 200 answer of a collection page has data. *)
Lemma load_renders_records H (rawPathname : option string) :
  Forall renders_records (fst (run (load H rawPathname))).
Proof.
  unfold run, load. cbv zeta.
  destruct (emits_load_on renders_records
              (decodedPathname H (raw_or_root rawPathname))
              (request_path (decodedPathname H (raw_or_root rawPathname)))
              I I I I (fun _ => I) I (fun _ => I) (fun _ => I)
              (fun args R c E => proj2 (R c E))
              H rawPathname [])
    as [(evs & -> & F) _].
  exact F.
Qed.

(** The static probe is the first call, whatever it answers. *)
Lemma static_probe_trace H reqPath tr :
  fst (static_probe H reqPath tr) = (tr ++ [EvStatic reqPath])%list.
Proof.
  unfold static_probe, try_catch, bind, call, ret.
  now destruct (loadStaticFile H reqPath).
Qed.





(** The [catch] clause on a reference error about [window]. *)
Lemma classify_window_error H reqPath rawPathname err :
  err_class err = ClsReferenceError ->
  Str.includes (err_toString err) "window is not defined" = true ->
  err_code err <> Some "parse-error" ->
  classify H reqPath rawPathname err =
    Load500 "ssr" (mkError (ssr_message reqPath)).
Proof.
  intros C I N. unfold classify, code_is, is_class. rewrite C, I.
  destruct (err_code err) as [code|]; [|reflexivity].
  destruct (String.eqb_spec code "parse-error") as [->|]; [congruence|reflexivity].
Qed.

(** How [load] reaches the rendering of a page. *)
Lemma load_found H rawPathname location pn currentPage :
  let pathname := decodedPathname H (raw_or_root rawPathname) in
  let reqPath := request_path pathname in
  (forall result, loadStaticFile H reqPath = Returns result ->
                  statusCode result <> 200%Z) ->
  Str.startsWith reqPath (ASTRO_FRONTEND H) = false ->
  searchForPage pathname (pages H) = Found location pn currentPage ->
  run (load H rawPathname) =
    try_catch (render_page H rawPathname reqPath location currentPage)
              (fun err => ret (classify H reqPath rawPathname err))
              [EvStatic reqPath; EvSearch pathname].
Proof.
  intros pathname reqPath S I F.
  unfold run, load. cbv zeta. fold pathname. fold reqPath.
  unfold bind, static_probe, try_catch, bind, call, ret.
  destruct (loadStaticFile H reqPath) as [result|e] eqn:L.
  - specialize (S result eq_refl). apply Z.eqb_neq in S. rewrite S.
    unfold dispatch, bind, call. rewrite I, F. reflexivity.
  - unfold dispatch, bind, call. rewrite I, F. reflexivity.
Qed.

(** C9 (as amended): when the rendering of a page throws a
    [ReferenceError] whose text contains "window is not defined", and the
    error is not taken for a parse error first (its [code] is not
    [parse-error]), [load] answers 500 of type [ssr] with a new error whose
    message is the guidance text for the request path; the error thrown is
    not passed on. *)
Theorem C9_window_error_is_rewritten H rawPathname location pn currentPage tr' err :
  let pathname := decodedPathname H (raw_or_root rawPathname) in
  let reqPath := request_path pathname in
  (forall result, loadStaticFile H reqPath = Returns result ->
                  statusCode result <> 200%Z) ->
  Str.startsWith reqPath (ASTRO_FRONTEND H) = false ->
  searchForPage pathname (pages H) = Found location pn currentPage ->
  render_page H rawPathname reqPath location currentPage
              [EvStatic reqPath; EvSearch pathname] = (tr', Throws err) ->
  err_class err = ClsReferenceError ->
  Str.includes (err_toString err) "window is not defined" = true ->
  err_code err <> Some "parse-error" ->
  run (load H rawPathname) =
    (tr', Returns (Load500 "ssr" (mkError (ssr_message reqPath)))).
Proof.
  intros pathname reqPath S I F R C W N.
  rewrite (load_found H rawPathname location pn currentPage S I F).
  fold pathname. fold reqPath.
  unfold try_catch. rewrite R. unfold ret.
  now rewrite (classify_window_error H reqPath rawPathname err C W N).
Qed.

End TraceFacts.


(** C9 on a page of the example site that uses [window]. *)
Lemma C9_window_error_on_tag :
  snd (run (load (Example.host Example.tag_pages
                    (Example.failing_page Example.window_error))
                 (Some "/tag"))) =
    Returns (Load500 "ssr" (mkError (ssr_message "/tag"))).
Proof.
  refine (f_equal snd
            (C9_window_error_is_rewritten
               (Example.host Example.tag_pages
                  (Example.failing_page Example.window_error))
               (Some "/tag") (PageFile "$tag.astro") "/tag" (Some 1%Z) _
               Example.window_error _ eq_refl eq_refl eq_refl eq_refl eq_refl _)).
  - intros result E. discriminate E.
  - discriminate.
Defined.

(** C9 (as stated) fails: a [ReferenceError] about [window] that carries
    [code: "parse-error"] is answered as a parse error, with the error
    itself. *)
Lemma C9_parse_error_comes_first :
  err_class Example.window_error_with_code = ClsReferenceError /\
  Str.includes (err_toString Example.window_error_with_code)
               "window is not defined" = true /\
  snd (run (load (Example.host Example.tag_pages
                    (Example.failing_page Example.window_error_with_code))
                 (Some "/tag"))) =
    Returns (Load500 "parse-error" Example.window_error_with_code).
Proof.
  repeat split; vm_compute; reflexivity.
Qed.

(** ** The iteration over the set of additional URLs *)

Lemma set_add_present (x : string) (s : list string) :
  In x s -> set_add x s = s.
Proof.
  intros I. unfold set_add.
  now rewrite (proj2 (existsb_eqb_In x s) I).
Qed.

Lemma set_add_app (x : string) (s0 new : list string) :
  exists new',
    set_add x (s0 ++ new)%list = (s0 ++ new')%list /\
    (forall y, In y new' -> In y new \/ y = x).
Proof.
  unfold set_add. destruct (existsb _ _).
  - exists new. split; [reflexivity | now left].
  - exists (new ++ [x])%list. split; [now rewrite app_assoc|].
    intros y I. apply in_app_or in I as [I|[<-|[]]]; [now left | now right].
Qed.

(** Once every entry from the index on has its image in the set, the
    iteration adds nothing, whatever fuel it has. *)
Lemma forEach_add_settled (f : string -> string) (fuel i : nat) (s : list string) :
  (forall j u, (i <= j)%nat -> nth_error s j = Some u -> In (f u) s) ->
  forEach_add f fuel i s = s.
Proof.
  revert i. induction fuel as [|k IH]; intros i St; cbn [forEach_add];
    [reflexivity|].
  destruct (nth_error s i) as [u|] eqn:N; [|reflexivity].
  rewrite (set_add_present _ _ (St i u (le_n i) N)).
  apply IH. intros j v Le. apply St. lia.
Qed.

(** With [f] idempotent, the entries the iteration adds are left alone by
    it: it is over after one visit of each entry it started with, and more
    fuel than that changes nothing. *)
Lemma forEach_add_enough (f : string -> string) :
  (forall u, f (f u) = f u) ->
  forall (k i : nat) (s0 new : list string) (fuel : nat),
    length s0 = (i + k)%nat ->
    (forall x, In x new -> f x = x) ->
    (k <= fuel)%nat ->
    forEach_add f fuel i (s0 ++ new) = forEach_add f k i (s0 ++ new).
Proof.
  intros Idem. induction k as [|k IH]; intros i s0 new fuel Len Fix Le.
  - cbn [forEach_add]. apply forEach_add_settled.
    intros j u Lj N.
    rewrite nth_error_app2 in N by lia.
    apply nth_error_In in N. rewrite (Fix u N).
    apply in_or_app. now right.
  - destruct fuel as [|fuel]; [lia|]. cbn [forEach_add].
    destruct (nth_error (s0 ++ new) i) as [u|] eqn:N.
    + destruct (set_add_app (f u) s0 new) as (new' & -> & In').
      apply IH; [lia | | lia].
      intros x I. destruct (In' x I) as [I'| ->]; [now apply Fix | apply Idem].
    + apply nth_error_None in N. rewrite length_app in N. lia.
Qed.

Lemma forEach_add_fuel (f : string -> string) (s : list string) (fuel : nat) :
  (forall u, f (f u) = f u) ->
  (2 * length s <= fuel)%nat ->
  forEach_add f fuel 0 s = forEach_add f (2 * length s) 0 s.
Proof.
  intros Idem Le.
  pose proof (forEach_add_enough f Idem (length s) 0 s [] fuel eq_refl
                ltac:(intros x []) ltac:(lia)) as E1.
  pose proof (forEach_add_enough f Idem (length s) 0 s [] (2 * length s) eq_refl
                ltac:(intros x []) ltac:(lia)) as E2.
  rewrite app_nil_r in E1, E2. now rewrite E1, E2.
Qed.

(** The result is closed under [f]: no entry is left to visit. *)
Lemma forEach_add_closed (f : string -> string) (s : list string) :
  (forall u, f (f u) = f u) ->
  forall u, In u (forEach_add f (2 * length s) 0 s) ->
            In (f u) (forEach_add f (2 * length s) 0 s).
Proof.
  intros Idem.
  assert (G : forall k i s0 new,
             length s0 = (i + k)%nat ->
             (forall x, In x new -> f x = x) ->
             (forall j u, (j < i)%nat -> nth_error s0 j = Some u ->
                          In (f u) (s0 ++ new)) ->
             forall u, In u (forEach_add f k i (s0 ++ new)) ->
                       In (f u) (forEach_add f k i (s0 ++ new))).
  { induction k as [|k IH]; intros i s0 new Len Fix Seen u; cbn [forEach_add].
    - intros I. apply in_app_or in I as [I|I].
      + apply In_nth_error in I as [j N].
        apply (Seen j u); [|exact N].
        assert (j < length s0)%nat by (apply nth_error_Some; congruence).
        lia.
      + rewrite (Fix u I). apply in_or_app. now right.
    - destruct (nth_error (s0 ++ new) i) as [v|] eqn:N.
      + destruct (set_add_app (f v) s0 new) as (new' & E & In').
        pose proof (set_add_incl (f v) (s0 ++ new)) as Inc.
        assert (Iv : In (f v) (s0 ++ new')).
        { rewrite <- E. unfold set_add.
          destruct (existsb _ _) eqn:X;
            [now apply existsb_eqb_In in X | apply in_or_app; right; now left]. }
        rewrite E in *.
        apply IH; [lia | |].
        * intros x I. destruct (In' x I) as [I'| ->]; [now apply Fix | apply Idem].
        * intros j w Lj Nj. destruct (Nat.eq_dec j i) as [->|Ne].
          -- rewrite nth_error_app1 in N by lia. congruence.
          -- apply Inc, (Seen j w); [lia | exact Nj].
      + apply nth_error_None in N. rewrite length_app in N. lia. }
  pose proof (forEach_add_enough f Idem (length s) 0 s [] (2 * length s) eq_refl
                ltac:(intros x []) ltac:(lia)) as E.
  rewrite app_nil_r in E. rewrite E.
  intros u. specialize (G (length s) 0%nat s [] eq_refl ltac:(intros x [])
                          ltac:(intros j w Lj; lia) u).
  now rewrite app_nil_r in G.
Qed.

(** ** The rewriting of the page segment *)

Lemma append_assoc (a b c : string) : (a ++ b) ++ c = a ++ (b ++ c).
Proof.
  induction a as [|x a IH]; simpl; [reflexivity | now rewrite IH].
Qed.

Lemma rev_onto_app (s acc : string) : Str.rev_onto s acc = Str.rev s ++ acc.
Proof.
  unfold Str.rev. revert acc.
  induction s as [|c t IH]; intros acc; cbn [Str.rev_onto]; [reflexivity|].
  rewrite (IH (String c acc)), (IH (String c EmptyString)).
  now rewrite append_String_assoc.
Qed.

Lemma rev_cons (c : ascii) (t : string) :
  Str.rev (String c t) = Str.rev t ++ String c EmptyString.
Proof.
  unfold Str.rev at 1. cbn [Str.rev_onto]. apply rev_onto_app.
Qed.

Lemma rev_app (a b : string) : Str.rev (a ++ b) = Str.rev b ++ Str.rev a.
Proof.
  induction a as [|c a IH]; cbn [append].
  - now rewrite append_nil_r.
  - now rewrite !rev_cons, IH, append_assoc.
Qed.

Lemma rev_involutive (s : string) : Str.rev (Str.rev s) = s.
Proof.
  induction s as [|c t IH]; [reflexivity|].
  now rewrite rev_cons, rev_app, IH.
Qed.

Lemma all_digits_app (a b : string) :
  all_digits (a ++ b) = all_digits a && all_digits b.
Proof.
  induction a as [|c a IH]; cbn [append all_digits]; [reflexivity|].
  now rewrite IH, andb_assoc.
Qed.

Lemma all_digits_rev (s : string) : all_digits (Str.rev s) = all_digits s.
Proof.
  induction s as [|c t IH]; [reflexivity|].
  rewrite rev_cons, all_digits_app, IH. cbn [all_digits].
  now rewrite andb_true_r, andb_comm.
Qed.

Lemma rev_nonempty (s : string) : s <> EmptyString -> Str.rev s <> EmptyString.
Proof.
  destruct s as [|c t]; [congruence|]. intros _.
  rewrite rev_cons. now destruct (Str.rev t).
Qed.

Lemma span_digits_slash (ds y : string) :
  all_digits ds = true ->
  Str.span Str.is_digit (ds ++ String "/" y) = (ds, String "/" y).
Proof.
  induction ds as [|c t IH]; cbn [append all_digits Str.span]; intros D.
  - reflexivity.
  - apply andb_true_iff in D as [Dc Dt]. now rewrite Dc, (IH Dt).
Qed.

(** A URL that ends in [/digits] has that segment replaced, and nothing
    else. *)
Lemma replace_page_suffix_page (x ds r : string) :
  ds <> EmptyString -> all_digits ds = true ->
  replace_page_suffix (x ++ String "/" ds) r = x ++ r.
Proof.
  intros N D. unfold replace_page_suffix.
  rewrite rev_app, rev_cons, append_String_assoc.
  rewrite span_digits_slash by now rewrite all_digits_rev.
  pose proof (rev_nonempty ds N) as N'.
  destruct (Str.rev ds); [congruence|]. now rewrite rev_involutive.
Qed.

Lemma replace_page_suffix_shape (s r : string) :
  exists x, replace_page_suffix s r = x ++ r.
Proof.
  unfold replace_page_suffix.
  destruct (Str.span Str.is_digit (Str.rev s)) as [[|d ds] [|c x]];
    try (now exists s).
  destruct (Ascii.eqb_spec c "/") as [->|Ne].
  - now exists (Str.rev x).
  - exists s. destruct c as [[] [] [] [] [] [] [] []]; try reflexivity.
    now contradiction Ne.
Qed.

(** Rewriting to page [/digits] twice is rewriting once. *)
Lemma replace_page_suffix_idem (s ds : string) :
  ds <> EmptyString -> all_digits ds = true ->
  replace_page_suffix (replace_page_suffix s (String "/" ds)) (String "/" ds) =
  replace_page_suffix s (String "/" ds).
Proof.
  intros N D. destruct (replace_page_suffix_shape s (String "/" ds)) as [x ->].
  now apply replace_page_suffix_page.
Qed.

Lemma string_of_uint_digits (d : Decimal.uint) :
  all_digits (NilEmpty.string_of_uint d) = true.
Proof.
  induction d; cbn [NilEmpty.string_of_uint all_digits]; try reflexivity;
    now rewrite IHd.
Qed.

(** A number that is not negative prints as digits, at least one. *)
Lemma of_Z_digits (n : Z) :
  (0 <= n)%Z -> Str.of_Z n <> EmptyString /\ all_digits (Str.of_Z n) = true.
Proof.
  intros N. unfold Str.of_Z. destruct n as [|p|p]; [| |lia].
  - split; [discriminate | reflexivity].
  - cbn [Z.to_int NilEmpty.string_of_int]. split.
    + pose proof (Unsigned.to_uint_nonnil p) as NN.
      destruct (Pos.to_uint p); [congruence | discriminate..].
    + apply string_of_uint_digits.
Qed.

(** The rounds of the [for] loop have fuel enough: with more of it, the
    iteration over the set gives the same set. *)
Lemma add_page_urls_fuel (n : Z) (urls : list string) (fuel : nat) :
  (0 <= n)%Z -> (2 * length urls <= fuel)%nat ->
  forEach_add (fun url => replace_page_suffix url ("/" ++ Str.of_Z n))
              fuel 0 urls =
  forEach_add (fun url => replace_page_suffix url ("/" ++ Str.of_Z n))
              (2 * length urls) 0 urls.
Proof.
  intros N Le. apply forEach_add_fuel; [|exact Le].
  intros u. destruct (of_Z_digits n N) as [NE D].
  now apply replace_page_suffix_idem.
Qed.

(** ** Page numbers in the URL: printing and reading back *)









(** ** The links of a page whose URL ends in its page number *)







(** * Further properties of the resolver *)

(** [findAnyPage] answers with the first candidate on disk, so that
    [.astro] comes before [.md]: a candidate is the answer exactly when it
    exists and none before it does, and there is no answer exactly when no
    candidate exists. *)
Theorem findAnyPage_first_existing (candidates : list string) (pages : PagesDir) :
  (forall c,
     findAnyPage candidates pages = Some (PageFile c) <->
     exists before after,
       candidates = (before ++ c :: after)%list /\
       existsSync pages c = true /\
       Forall (fun b => existsSync pages b = false) before) /\
  (findAnyPage candidates pages = None <->
   Forall (fun b => existsSync pages b = false) candidates) /\
  findAnyPage candidates pages <> Some Frontend500.
Proof.
  induction candidates as [|a rest IH]; cbn [findAnyPage].
  - split; [|split; [|discriminate]].
    + intros c. split; [discriminate|].
      intros (before & after & E & _). now destruct before.
    + split; [constructor | reflexivity].
  - destruct IH as (IHs & IHn & IHf).
    destruct (existsSync pages a) eqn:Ea.
    + split; [|split; [|discriminate]].
      * intros c. split.
        -- intros [= <-]. exists [], rest. now repeat split.
        -- intros (before & after & E & Ec & Fb).
           destruct before as [|b before'].
           ++ now injection E as ->.
           ++ injection E as -> _. inversion Fb; congruence.
      * split; [discriminate|]. intros F. inversion F; congruence.
    + split; [|split; [|exact IHf]].
      * intros c. rewrite IHs. split.
        -- intros (before & after & -> & Ec & Fb).
           exists (a :: before), after. repeat split; [assumption|].
           now constructor.
        -- intros (before & after & E & Ec & Fb).
           destruct before as [|b before'].
           ++ injection E as -> _. congruence.
           ++ injection E as -> ->. inversion Fb; subst.
              now exists before', after.
      * rewrite IHn. split.
        -- intros F. now constructor.
        -- intros F. now inversion F.
Qed.

(** What a redirect of the resolver says about the disk. *)
Lemma moved_inv (reqPath : string) (pages : PagesDir) (pathname : string) :
  searchForPage reqPath pages = Moved pathname ->
  pathname = reqPath ++ "/" /\
  exists location,
    findAnyPage [Str.substr1 reqPath ++ "/index.astro";
                 Str.substr1 reqPath ++ "/index.md"] pages = Some location.
Proof.
  unfold searchForPage, search_reserved.
  destruct (if Str.endsWith reqPath "/" then _ else _); [discriminate|].
  destruct (findAnyPage [_ ++ "/index.astro"; _] pages) as [location|].
  - intros [= <-]. split; [reflexivity | now exists location].
  - destruct (Str.truthy (extname reqPath)); cbn [negb].
    + destruct (reqPath =? "/500"); discriminate.
    + destruct (loadCollection reqPath pages); try discriminate.
      destruct (reqPath =? "/500"); discriminate.
Qed.

(** The index candidates of [path/] are, as files, those of [path]'s
    directory. *)
Lemma index_candidates_after_slash (reqPath : string) (pages : PagesDir) (x : string) :
  existsSync pages (Str.substr1 (reqPath ++ "/") ++ x) =
  existsSync pages (Str.substr1 reqPath ++ String "/" x).
Proof.
  destruct reqPath as [|c t]; cbn [append Str.substr1].
  - unfold existsSync. now rewrite path_segments_leading_slash.
  - now rewrite append_String_assoc.
Qed.

(** A redirect leads somewhere: the path the resolver redirects to is
    answered by the index file that caused the redirect, with status 200;
    there is no chain of redirects and no redirect to a missing page. *)
Theorem redirect_target_is_found (reqPath : string) (pages : PagesDir)
        (pathname : string) :
  searchForPage reqPath pages = Moved pathname ->
  exists ext,
    In ext ["astro"; "md"] /\
    searchForPage pathname pages =
      Found (PageFile (Str.substr1 pathname ++ "index." ++ ext)) pathname None.
Proof.
  intros M. apply moved_inv in M as (-> & location & F).
  unfold searchForPage. rewrite endsWith_app.
  cbn [findAnyPage] in *.
  rewrite !index_candidates_after_slash.
  destruct (existsSync pages (Str.substr1 reqPath ++ "/index.astro")).
  - exists "astro". split; [now left | reflexivity].
  - destruct (existsSync pages (Str.substr1 reqPath ++ "/index.md"));
      [|discriminate].
    exists "md". split; [right; now left | reflexivity].
Qed.

(** The redirect of [/blog.v2] on the example site leads to its index
    page. *)
Lemma redirect_target_is_found_example :
  exists ext,
    In ext ["astro"; "md"] /\
    searchForPage "/blog.v2/" Example.versioned_pages =
      Found (PageFile ("blog.v2/" ++ "index." ++ ext)) "/blog.v2/" None.
Proof.
  exact (redirect_target_is_found "/blog.v2" Example.versioned_pages
           "/blog.v2/" eq_refl).
Defined.

Lemma loadCollection_loop_location (globbed : list string) (url : string)
      (location : Location) (currentPage : option Z) :
  loadCollection_loop globbed url = Collection location currentPage ->
  exists pageURL, location = PageFile pageURL /\ In pageURL globbed.
Proof.
  induction globbed as [|pageURL rest IH]; cbn [loadCollection_loop];
    [discriminate|].
  destruct (atoms_of (replace_param pageURL)) as [name|]; [|discriminate].
  destruct (match_route name url).
  - intros R. destruct (IH R) as (p & -> & I). exists p. split; [reflexivity | now right].
  - intros [= <- _]. exists pageURL. split; [reflexivity | now left].
Qed.

(** What a 200 answer of the resolver stands for.  Its path is the request
    path.  Without a page number it is a file that is on disk, or the
    built-in error page, which only [/500] gets.  With a page number it is a
    collection file the directory walk listed, the request path has no
    extension, and the page number is not zero. *)
Theorem found_is_backed (reqPath : string) (pages : PagesDir)
        (location : Location) (pathname : string) (currentPage : option Z) :
  searchForPage reqPath pages = Found location pathname currentPage ->
  pathname = reqPath /\
  match currentPage with
  | None =>
      (exists file, location = PageFile file /\ existsSync pages file = true) \/
      (location = Frontend500 /\ reqPath = "/500")
  | Some p =>
      p <> 0%Z /\ extname reqPath = EmptyString /\
      exists pageURL,
        location = PageFile pageURL /\ In pageURL (glob_collections pages)
  end.
Proof.
  assert (Reserved : search_reserved reqPath = Found location pathname currentPage ->
            pathname = reqPath /\ currentPage = None /\
            location = Frontend500 /\ reqPath = "/500").
  { unfold search_reserved. destruct (String.eqb_spec reqPath "/500");
      [|discriminate]. now intros [= <- <- <-]. }
  unfold searchForPage.
  destruct (if Str.endsWith reqPath "/" then _ else _) as [direct|] eqn:D.
  - intros [= <- <- <-]. split; [reflexivity|]. left.
    destruct (Str.endsWith reqPath "/");
      apply findAnyPage_two in D as [[-> X]|[-> X]]; eauto.
  - destruct (findAnyPage [_ ++ "/index.astro"; _] pages); [discriminate|].
    destruct (Str.truthy (extname reqPath)) eqn:T; cbn [negb].
    + intros R. destruct (Reserved R) as (-> & -> & -> & ->).
      split; [reflexivity | right; split; reflexivity].
    + destruct (loadCollection reqPath pages) as [|l cp|] eqn:L.
      * intros R. destruct (Reserved R) as (-> & -> & -> & ->).
        split; [reflexivity | right; split; reflexivity].
      * intros [= <- <- <-]. split; [reflexivity|].
        split; [apply or_one_nonzero|]. split.
        -- unfold Str.truthy in T. apply negb_false_iff in T.
           now apply String.eqb_eq in T.
        -- now apply loadCollection_loop_location in L.
      * discriminate.
Qed.

(** [found_is_backed] on the request [/tag/2] of the example site. *)
Lemma found_is_backed_example :
  "/tag/2" = "/tag/2" /\
  (2 <> 0)%Z /\ extname "/tag/2" = EmptyString /\
  exists pageURL,
    PageFile "$tag.astro" = PageFile pageURL /\
    In pageURL (glob_collections Example.tag_pages).
Proof.
  exact (found_is_backed "/tag/2" Example.tag_pages (PageFile "$tag.astro")
           "/tag/2" (Some 2%Z) eq_refl).
Defined.

(** The reserved path [/500] is never not found: whatever is on disk, it is
    answered by a page, a redirect or a collection, and by the built-in
    error page when nothing on disk answers it. *)
Theorem reserved_path_is_never_missing (pages : PagesDir) :
  searchForPage "/500" pages <> Missing /\
  (findAnyPage ["500.astro"; "500.md"] pages = None ->
   findAnyPage ["500/index.astro"; "500/index.md"] pages = None ->
   loadCollection "/500" pages = NoCollection ->
   searchForPage "/500" pages = Found Frontend500 "/500" None).
Proof.
  assert (T : Str.truthy (extname "/500") = false) by (vm_compute; reflexivity).
  assert (R : search_reserved "/500" = Found Frontend500 "/500" None)
    by reflexivity.
  unfold searchForPage.
  change (Str.endsWith "/500" "/") with false. cbv iota.
  change (Str.substr1 "/500") with "500". cbn [append].
  rewrite T, R. cbn [negb].
  split.
  - destruct (findAnyPage ["500.astro"; "500.md"] pages); [discriminate|].
    destruct (findAnyPage ["500/index.astro"; "500/index.md"] pages);
      [discriminate|].
    destruct (loadCollection "/500" pages); discriminate.
  - now intros -> -> ->.
Qed.

(** * Further properties of the pagination *)

Section PaginationLaws.

Context {Item Feed : Type}.

Implicit Types (data : list Item) (createRSS : option Feed).

Lemma firstn_add (a b : nat) (l : list Item) :
  firstn (a + b) l = (firstn a l ++ firstn b (skipn a l))%list.
Proof.
  revert l. induction a as [|a IH]; intros l; [reflexivity|].
  destruct l as [|x l]; cbn [Nat.add firstn skipn app].
  - now rewrite firstn_nil.
  - now rewrite IH.
Qed.

Lemma firstn_capped (a b : nat) (l : list Item) :
  (length l <= b)%nat -> firstn (Nat.min a b) l = firstn a l.
Proof.
  intros Le. destruct (Nat.le_ge_cases a b) as [H|H].
  - now rewrite Nat.min_l.
  - rewrite Nat.min_r by assumption.
    now rewrite !firstn_all2 by lia.
Qed.

(** Consecutive chunks of [n] records make up the first [k * n] records. *)
Lemma chunks_concat (n k : nat) (l : list Item) :
  concat (map (fun i => firstn n (skipn (i * n) l)) (seq 0 k)) =
  firstn (k * n) l.
Proof.
  induction k as [|k IH]; [reflexivity|].
  rewrite seq_S, map_app, concat_app, IH. cbn [map concat Nat.add].
  rewrite app_nil_r. cbn [Nat.mul].
  now rewrite (Nat.add_comm n (k * n)), firstn_add.
Qed.

(** The slice of page [i + 1], as long as it starts within the data, is
    the chunk of [n] records after the first [i * n]. *)
Lemma page_slice_chunk (declared : option Num) (n : Z) (i : nat) data :
  default_pageSize declared = Fin n -> (1 <= n)%Z ->
  (Z.of_nat i * n <= Z.of_nat (length data))%Z ->
  page_slice (Some (Z.of_nat (S i))) declared data =
  firstn (Z.to_nat n) (skipn (i * Z.to_nat n) data).
Proof.
  intros D N In. unfold page_slice, truthy_page, truthy_num.
  destruct (Z.eqb_spec (Z.of_nat (S i)) 0); [lia|]. cbn [negb].
  rewrite D. cbn [page_start page_stop].
  rewrite js_slice_window by lia.
  replace (Z.to_nat ((Z.of_nat (S i) - 1) * n)) with (i * Z.to_nat n)%nat by nia.
  rewrite <- (firstn_capped (Z.to_nat n) (length data - i * Z.to_nat n)).
  - f_equal. lia.
  - rewrite length_skipn. lia.
Qed.

(** The pages from 1 to [page.last], one after the other, are the data:
    no record is left out and none is served twice. *)
Theorem pages_partition_the_data (declared : option Num) (n : Z) data :
  default_pageSize declared = Fin n -> (1 <= n)%Z ->
  concat (map (fun p => page_slice (Some (Z.of_nat p)) declared data)
              (seq 1 (Z.to_nat (last_page (Fin n) (Z.of_nat (length data))))))
  = data.
Proof.
  intros D N. cbn [last_page].
  pose proof (ceil_div_bounds (Z.of_nat (length data)) n ltac:(lia)) as B.
  set (k := Z.to_nat (ceil_div (Z.of_nat (length data)) n)).
  assert (K : (Z.of_nat k = ceil_div (Z.of_nat (length data)) n)%Z) by (subst k; nia).
  rewrite <- seq_shift, map_map.
  rewrite (map_ext_in _ (fun i => firstn (Z.to_nat n) (skipn (i * Z.to_nat n) data))).
  - rewrite chunks_concat. apply firstn_all2. nia.
  - intros i I. apply in_seq in I.
    apply (page_slice_chunk declared n i data D N). nia.
Qed.

(** A page number from 1 on is beyond the data exactly when it is greater
    than [page.last]: the pages 1 to [page.last] have records, the others
    are answered 404. *)
Theorem not_found_iff_beyond_last reqPath (p : Z) (declared : option Num)
        (n : Z) createRSS requestedParams urls data :
  default_pageSize declared = Fin n -> (1 <= n)%Z -> (1 <= p)%Z ->
  let last := last_page (Fin n) (Z.of_nat (length data)) in
  ((exists info,
      paginate reqPath (Some p) declared createRSS requestedParams urls data =
        Return (Load404 (mkError "Not Found") (Some info))) <-> (last < p)%Z) /\
  ((exists c info,
      paginate reqPath (Some p) declared createRSS requestedParams urls data =
        Continue c info) <-> (p <= last)%Z).
Proof.
  intros D N P last.
  pose proof (ceil_div_bounds (Z.of_nat (length data)) n ltac:(lia)) as B.
  assert (S : page_slice (Some p) declared data = [] <-> (last < p)%Z).
  { replace p with (Z.of_nat (S (Z.to_nat (p - 1)))) by lia.
    subst last. cbn [last_page].
    destruct (Z.le_gt_cases (Z.of_nat (Z.to_nat (p - 1)) * n)
                            (Z.of_nat (length data))) as [Le|Gt].
    - rewrite (page_slice_chunk declared n _ data D N Le).
      split.
      + intros E. apply (f_equal (@length Item)) in E.
        rewrite length_firstn, length_skipn in E. cbn [length] in E. nia.
      + intros L. apply length_zero_iff_nil.
        rewrite length_firstn, length_skipn. nia.
    - split; [intros _; nia|]. intros _.
      unfold page_slice, truthy_page, truthy_num.
      destruct (Z.eqb_spec (Z.of_nat (S (Z.to_nat (p - 1)))) 0); [lia|].
      cbn [negb]. rewrite D. cbn [page_start page_stop].
      unfold js_slice.
      destruct (Z.ltb_spec ((Z.of_nat (S (Z.to_nat (p - 1))) - 1) * n) 0); [nia|].
      match goal with |- context [(Z.min ?a ?b <? 0)%Z] =>
        destruct (Z.ltb_spec (Z.min a b) 0); [lia|] end.
      apply length_zero_iff_nil. rewrite length_firstn. lia. }
  destruct (paginate_slice reqPath (Some p) declared createRSS requestedParams
              urls data) as (urls' & _ & E404 & ECont).
  { left. unfold truthy_page, truthy_num.
    destruct (Z.eqb_spec p 0); [lia | reflexivity]. }
  cbv zeta in E404, ECont.
  destruct (page_slice (Some p) declared data) as [|x rest] eqn:Sl.
  - rewrite (E404 eq_refl). split.
    + split; [intros _; now apply S | intros _; now eexists].
    + split; [intros (c & info & E); discriminate E |].
      intros L. assert (last < p)%Z by now apply S. lia.
  - destruct (ECont ltac:(discriminate)) as (c & -> & _). split.
    + split; [intros (info & E); discriminate E |].
      intros L. apply S in L. discriminate L.
    + split; [|intros _; now eexists _, _].
      intros _. destruct (Z.le_gt_cases p last); [assumption|].
      assert (E : x :: rest = []) by (apply S; lia). discriminate E.
Qed.

End PaginationLaws.

(** The three posts of the example, two a page, are pages 1 and 2. *)
Lemma pages_partition_example :
  concat (map (fun p => page_slice (Some (Z.of_nat p)) (Some (Fin 2))
                                   Example.three_posts)
              (seq 1 (Z.to_nat (last_page (Fin 2) 3)))) = Example.three_posts.
Proof.
  exact (pages_partition_the_data (Some (Fin 2)) 2 Example.three_posts
           eq_refl ltac:(lia)).
Defined.

(** Page 2 of the three posts, two a page, has records; page 3 has not. *)
Lemma not_found_iff_beyond_last_example :
  ((exists info,
      paginate "/tag/3" (Some 3%Z) (Some (Fin 2)) (Some "feed") None []
               Example.three_posts =
        Return (Load404 (mkError "Not Found") (Some info))) <-> (2 < 3)%Z) /\
  ((exists c info,
      paginate "/tag/3" (Some 3%Z) (Some (Fin 2)) (Some "feed") None []
               Example.three_posts = Continue c info) <-> (3 <= 2)%Z).
Proof.
  exact (not_found_iff_beyond_last "/tag/3" 3 (Some (Fin 2)) 2 (Some "feed")
           None [] Example.three_posts eq_refl ltac:(lia) ltac:(lia)).
Defined.

(** * Further properties of the collection block *)

Section BlockLaws.

Context {Item Feed : Type}.

Implicit Types (decl : CreateCollection Item Feed) (tr : list (Event Item))
         (data : list Item) (createRSS : option Feed).

(** A page that is rendered, for a page number from 1 on and a page size
    [n] of at least 1: its bounds lie within the data and [end] is the index
    of its last record, it has between 1 and [n] records, the [n] records
    after the first [(p-1)*n] or what is left of them, its number is at most
    [page.last], and it has a next page exactly when it is not the last one
    and a previous page exactly when it is not the first. *)
Theorem rendered_page_invariants reqPath (p : Z) (declared : option Num) (n : Z)
        createRSS requestedParams urls data c info :
  default_pageSize declared = Fin n -> (1 <= n)%Z -> (1 <= p)%Z ->
  paginate reqPath (Some p) declared createRSS requestedParams urls data =
    Continue c info ->
  (0 <= c_start c <= c_end c)%Z /\ (c_end c < c_total c)%Z /\
  c_total c = Z.of_nat (length data) /\
  Z.of_nat (length (c_data c)) = (c_end c - c_start c + 1)%Z /\
  (1 <= Z.of_nat (length (c_data c)) <= n)%Z /\
  c_data c = firstn (Z.to_nat n) (skipn (Z.to_nat ((p - 1) * n)) data) /\
  (p <= page_last c)%Z /\
  (url_next c <> None <-> (p < page_last c)%Z) /\
  (url_prev c <> None <-> (1 < p)%Z).
Proof.
  intros D N P E.
  pose proof (ceil_div_bounds (Z.of_nat (length data)) n ltac:(lia)) as B.
  unfold paginate, truthy_page, truthy_num in E.
  destruct (Z.eqb_spec p 0); [lia|]. cbn [negb] in E.
  rewrite D in E. cbn [page_start page_stop last_page] in E.
  set (L := Z.of_nat (length data)) in *.
  set (start := ((p - 1) * n)%Z) in *.
  set (stop := Z.min (start + n) L) in *.
  destruct (js_slice data start stop) as [|x rest] eqn:S; [discriminate|].
  injection E as <- _.
  cbn [c_start c_end c_total c_data page_last url_next url_prev].
  assert (S0 : (0 <= start)%Z) by (subst start; nia).
  assert (Lt : (start < L)%Z).
  { destruct (Z.lt_ge_cases start L) as [|Ge]; [assumption|].
    exfalso. unfold js_slice in S. fold L in S.
    destruct (Z.ltb_spec start 0); [lia|].
    destruct (Z.ltb_spec stop 0); [subst stop; lia|].
    apply (f_equal (@length Item)) in S. rewrite length_firstn in S.
    cbn [length] in S. subst stop. lia. }
  assert (W : x :: rest = firstn (Z.to_nat (stop - start)) (skipn (Z.to_nat start) data)).
  { rewrite <- S. apply js_slice_window. subst stop. lia. }
  assert (Len : Z.of_nat (length (x :: rest)) = (stop - start)%Z).
  { rewrite W, length_firstn, length_skipn. subst stop L. lia. }
  assert (St : stop = Z.min (start + n) L) by reflexivity.
  assert (Sp : start = ((p - 1) * n)%Z) by reflexivity.
  clearbody stop start.
  repeat match goal with |- _ /\ _ => split end; try lia.
  - rewrite W.
    rewrite <- (firstn_capped (Z.to_nat n) (length data - Z.to_nat start)).
    + f_equal. subst L. lia.
    + rewrite length_skipn. lia.
  - nia.
  - split.
    + destruct (Z.ltb_spec stop L); [nia | congruence].
    + intros Lp. destruct (Z.ltb_spec stop L); [discriminate | nia].
  - split.
    + destruct (Z.ltb_spec 1 p); [trivial | congruence].
    + intros Lp. destruct (Z.ltb_spec 1 p); [discriminate | lia].
Qed.

End BlockLaws.

(** The invariants on page 2 of the three posts, two a page. *)
Lemma rendered_page_invariants_example :
  exists c info,
    paginate "/tag/2" (Some 2%Z) (Some (Fin 2)) (Some "feed") None []
             Example.three_posts = Continue c info /\
    c_data c = ["c"] /\ (url_prev c <> None <-> (1 < 2)%Z).
Proof.
  eexists _, _. split; [vm_compute; reflexivity|].
  destruct (rendered_page_invariants "/tag/2" 2 (Some (Fin 2)) 2 (Some "feed")
              None [] Example.three_posts _ _ eq_refl ltac:(lia) ltac:(lia) eq_refl)
    as (_ & _ & _ & _ & _ & Da & _ & _ & Pr).
  split; [exact Da | exact Pr].
Defined.

Section DeclarationLaws.

Context {Item Feed : Type}.

Implicit Types (decl : CreateCollection Item Feed) (tr : list (Event Item))
         (data : list Item) (createRSS : option Feed).

Lemma js_slice_all data :
  js_slice data 0 (Z.of_nat (length data)) = data.
Proof.
  rewrite js_slice_window by lia. cbn [Z.to_nat skipn].
  apply firstn_all2. lia.
Qed.

(** With [pageSize: Infinity] every page number, whatever it is, is
    answered with all of the data: the page starts at 0, [page.last] is 0,
    there is no next page, and no page URL is added to the additional
    URLs. *)
Theorem unbounded_page_size_serves_all reqPath (p : Z) createRSS requestedParams
        urls data :
  p <> 0%Z -> data <> [] ->
  paginate reqPath (Some p) (Some Infinity) createRSS requestedParams urls data =
    Continue
      {| c_start := 0; c_end := Z.of_nat (length data) - 1;
         c_total := Z.of_nat (length data);
         page_current := p; page_size := Infinity; page_last := 0;
         url_current := reqPath; url_next := None;
         url_prev := if (1 <? p)%Z then Some (prev_url reqPath p) else None;
         c_params := requestedParams; c_data := data |}
      {| additionalURLs := urls; rss := rss_payload createRSS data |}.
Proof.
  intros P D. unfold paginate, truthy_page, truthy_num.
  destruct (Z.eqb_spec p 0); [contradiction|]. cbn [negb].
  cbn [default_pageSize num_truthy page_start page_stop last_page].
  rewrite js_slice_all, Z.ltb_irrefl. cbn [Z.to_nat add_pages_from].
  destruct data; [contradiction | reflexivity].
Qed.

(** Every exit of [paginate] carries the collection info: the URLs gathered
    so far are among its additional URLs, and its feed has all of the data,
    not the page. *)
Lemma paginate_info reqPath currentPage declared createRSS requestedParams
      urls data :
  exists urls',
    incl urls urls' /\
    exit_info (paginate reqPath currentPage declared createRSS requestedParams
                        urls data) =
      Some {| additionalURLs := urls'; rss := rss_payload createRSS data |}.
Proof.
  unfold paginate. destruct (truthy_page currentPage).
  - eexists. split; [apply add_pages_from_incl|].
    now destruct (js_slice data _ _).
  - exists urls. split; [apply incl_refl|].
    destruct (declares_pageSize declared); [reflexivity|].
    now destruct data.
Qed.

(** The feed is never paginated: whether the block ends with the redirect
    to page 1, with the 404 of an empty page or with the collection to
    render, it hands on a collection info whose [rss] is the declared feed
    with every record [data()] gave. *)
Theorem feed_has_all_the_data reqPath currentPage decl tr tr' exit :
  collection_block reqPath currentPage decl tr = (tr', Returns exit) ->
  exists loadData params loaded info,
    get_data decl = Some loadData /\
    loadData params = Returns loaded /\
    exit_info exit = Some info /\
    rss info = rss_payload (get_rss decl) (as_array loaded).
Proof.
  intros R.
  destruct (collection_block_returns _ _ _ _ _ _ R)
    as (loadData & requestedParams & urls & tr1 & loaded & D & _ & _ & L & _ & ->).
  destruct (paginate_info reqPath currentPage (get_pageSize decl) (get_rss decl)
              requestedParams urls (as_array loaded)) as (urls' & _ & E).
  exists loadData, (params_or_empty requestedParams), loaded.
  eexists. split; [exact D | split; [exact L | split; [exact E | reflexivity]]].
Qed.

Lemma check_keys_valid (keys : list string) tr :
  Forall (fun key => In key VALID_KEYS) keys ->
  check_keys (Item := Item) keys tr = (tr, Returns tt).
Proof.
  induction 1 as [|key rest V _ IH]; cbn [check_keys]; [reflexivity|].
  now rewrite (proj2 (existsb_eqb_In key VALID_KEYS) V).
Qed.

(** A declaration with known keys but without what goes together is
    refused before anything is called: no [data], or [permalink] without
    [routes], or [routes] without [permalink], each throws its own error
    and leaves the trace as it was. *)
Theorem incomplete_declaration_throws reqPath currentPage decl tr :
  Forall (fun f => In (field_key f) VALID_KEYS) decl ->
  (get_data decl = None ->
   collection_block reqPath currentPage decl tr =
     (tr, Throws (mkError "[createCollection] must return `data()` function to create a collection."))) /\
  (get_data decl <> None -> get_routes decl = None -> get_permalink decl <> None ->
   collection_block reqPath currentPage decl tr =
     (tr, Throws (mkError "[createCollection] `permalink` requires `routes` as well."))) /\
  (get_data decl <> None -> get_routes decl <> None -> get_permalink decl = None ->
   collection_block reqPath currentPage decl tr =
     (tr, Throws (mkError "[createCollection] `routes` requires `permalink` as well."))).
Proof.
  intros V.
  assert (K : check_keys (Item := Item) (map field_key decl) tr = (tr, Returns tt)).
  { apply check_keys_valid. now apply Forall_map. }
  unfold collection_block, bind, resolve_params. rewrite K.
  repeat split.
  - now intros ->.
  - intros D R Pm. destruct (get_data decl); [|congruence].
    rewrite R. now destruct (get_permalink decl).
  - intros D R Pm. destruct (get_data decl); [|congruence].
    rewrite Pm. now destruct (get_routes decl).
Qed.

End DeclarationLaws.

(** A declaration with routes and no permalink. *)
Lemma incomplete_declaration_example :
  collection_block "/tag" (Some 1%Z)
    (FRoutes [[("tag", "a")]] :: Example.paged Example.three_posts 1) [] =
    ([], Throws (mkError "[createCollection] `routes` requires `permalink` as well.")).
Proof.
  refine (proj2 (proj2 (incomplete_declaration_throws "/tag" (Some 1%Z)
            (FRoutes [[("tag", "a")]] :: Example.paged Example.three_posts 1) [] _))
            _ _ _); try discriminate; try reflexivity.
  repeat constructor; cbn; tauto.
Defined.

(** Page 5 of three posts with [pageSize: Infinity]. *)
Lemma unbounded_page_size_example :
  exists c info,
    paginate "/tag/5" (Some 5%Z) (Some Infinity) (Some "feed") None []
             Example.three_posts = Continue c info /\
    c_data c = Example.three_posts /\ page_last c = 0%Z /\
    additionalURLs info = [].
Proof.
  eexists _, _. split.
  - exact (unbounded_page_size_serves_all "/tag/5" 5 (Some "feed") None []
             Example.three_posts ltac:(discriminate) ltac:(discriminate)).
  - repeat split.
Defined.

(** The feed of page 2 of the example has the three posts. *)
Lemma feed_has_all_the_data_example :
  exists info,
    exit_info (paginate "/tag/2" (Some 2%Z) (Some (Fin 1)) (Some "feed") None
                        [] Example.three_posts) = Some info /\
    rss info = Some {| rss_feed := "feed"; rss_data := Example.three_posts |}.
Proof.
  destruct (feed_has_all_the_data "/tag/2" (Some 2%Z)
              (Example.paged Example.three_posts 1) [] _ _ eq_refl)
    as (loadData & params & loaded & info & D & L & E & R).
  injection D as <-. injection L as <-.
  exists info. split; [exact E | exact R].
Defined.

(** * Further properties of the routes and of the additional URLs *)

Section RouteLaws.

Context {Item : Type}.

Implicit Types (tr : list (Event Item)) (permalink : Params -> Outcome string).

(** Routes whose permalink is not the requested path are passed over: each
    has its permalink evaluated and added to the set. *)
Lemma find_route_skip permalink (url : Params -> string) reqPath currentPage
      (before rest : list Params) (urls : list string) tr :
  (forall q, In q before -> permalink q = Returns (url q)) ->
  Forall (fun q => is_requested reqPath currentPage (url q) = false) before ->
  find_route permalink reqPath currentPage (before ++ rest) urls tr =
  find_route permalink reqPath currentPage rest
             (fold_left (fun acc q => set_add (url q) acc) before urls)
             (tr ++ map EvPermalink before)%list.
Proof.
  revert urls tr. induction before as [|q before IH]; intros urls tr Pm Nr.
  - cbn [app map fold_left]. now rewrite app_nil_r.
  - inversion Nr as [|? ? Nq Nr']; subst.
    cbn [app find_route]. unfold bind at 1, call.
    rewrite (Pm q (or_introl eq_refl)).
    unfold is_requested in Nq. rewrite Nq.
    rewrite IH by (try assumption; intros; apply Pm; now right).
    cbn [map fold_left]. now rewrite <- app_assoc.
Qed.

(** [routes.find] stops at the first route whose permalink is the request
    path, bare or followed by the page number: that route gives the params;
    the permalinks of the routes up to it, and of no route after it, have
    been evaluated, in order, and make up the set of URLs. *)
Theorem first_matching_route_wins permalink (url : Params -> string) reqPath
        currentPage (before : list Params) (p : Params) (after : list Params)
        (urls : list string) tr :
  (forall q, In q (before ++ [p]) -> permalink q = Returns (url q)) ->
  Forall (fun q => is_requested reqPath currentPage (url q) = false) before ->
  is_requested reqPath currentPage (url p) = true ->
  find_route permalink reqPath currentPage (before ++ p :: after) urls tr =
    ((tr ++ map EvPermalink (before ++ [p]))%list,
     Returns (Some p,
              fold_left (fun acc q => set_add (url q) acc) (before ++ [p]) urls)).
Proof.
  intros Pm Nr Rq.
  rewrite (find_route_skip permalink url) by
    (try assumption; intros; apply Pm, in_or_app; now left).
  cbn [find_route]. unfold bind, call.
  rewrite (Pm p) by (apply in_or_app; right; now left).
  unfold is_requested in Rq. rewrite Rq. unfold ret.
  now rewrite map_app, fold_left_app, app_assoc.
Qed.

(** The calls of [find_route] are permalinks of the first routes, and the
    params it finds are one of the routes. *)
Lemma find_route_trace permalink reqPath currentPage (routes : list Params)
      (urls : list string) tr :
  exists k,
    fst (find_route permalink reqPath currentPage routes urls tr) =
      (tr ++ map EvPermalink (firstn k routes))%list /\
    forall p urls',
      snd (find_route permalink reqPath currentPage routes urls tr) =
        Returns (Some p, urls') -> In p routes.
Proof.
  revert urls tr. induction routes as [|q rest IH]; intros urls tr.
  - exists 0%nat. cbn. rewrite app_nil_r. split; [reflexivity | discriminate].
  - cbn [find_route]. unfold bind, call.
    destruct (permalink q) as [baseURL|e].
    + destruct (_ || _).
      * exists 1%nat. cbn. split; [reflexivity|].
        intros p urls' [= <- _]. now left.
      * destruct (IH (set_add baseURL urls) (tr ++ [EvPermalink q])%list)
          as (k & T & In').
        exists (S k). rewrite T. cbn [firstn map].
        split; [now rewrite <- app_assoc|].
        intros p urls' R. right. now apply (In' p urls').
    + exists 1%nat. cbn. split; [reflexivity | discriminate].
Qed.

End RouteLaws.

Section LoaderLaws.

Context {Item Feed : Type}.

Implicit Types (decl : CreateCollection Item Feed) (tr : list (Event Item)).

(** A block that comes to an end has called [data()] exactly once, as its
    last call, after the permalinks of the first routes and nothing else;
    it has called it with the params of one of the routes, or with [{}]
    when no route is the requested one. *)
Theorem data_is_loaded_once reqPath currentPage decl tr tr' exit :
  collection_block reqPath currentPage decl tr = (tr', Returns exit) ->
  exists k params,
    tr' = (tr ++ map EvPermalink (firstn k (routes_of decl))
              ++ [EvData params])%list /\
    (params = [] \/ In params (routes_of decl)).
Proof.
  intros R.
  destruct (collection_block_returns _ _ _ _ _ _ R)
    as (loadData & requestedParams & urls & tr1 & loaded & _ & RP & -> & _).
  unfold resolve_params, routes_of in *.
  destruct (get_routes decl) as [routes|], (get_permalink decl) as [permalink|];
    try discriminate RP.
  - destruct (find_route_trace permalink reqPath currentPage routes [] tr)
      as (k & T & In').
    rewrite RP in T, In'. cbn [fst snd] in T, In'. subst tr1.
    exists k, (params_or_empty requestedParams).
    split; [now rewrite <- app_assoc|].
    destruct requestedParams as [p|]; [right | now left].
    now apply (In' p urls).
  - injection RP as <- <- <-. exists 0%nat, []. cbn.
    split; [reflexivity | now left].
Qed.

End LoaderLaws.

(** The example loads its data once, with no params. *)
Lemma data_is_loaded_once_example :
  exists k params,
    fst (run (collection_block "/tag/2" (Some 2%Z)
                (Example.paged Example.three_posts 1))) =
      ([] ++ map EvPermalink (firstn k []) ++ [EvData params])%list /\
    (params = [] \/ In params []).
Proof.
  exact (data_is_loaded_once "/tag/2" (Some 2%Z)
           (Example.paged Example.three_posts 1) [] _ _ eq_refl).
Defined.

(** Two routes, the second of which is the requested one. *)
Lemma first_matching_route_example :
  find_route (Item := string) (fun q => Returns (Site.tag_url q))
             "/tag/b/2" (Some 2%Z)
             ([Site.tag_route "a"] ++ Site.tag_route "b" :: [Site.tag_route "c"])
             [] [] =
    ([EvPermalink (Site.tag_route "a"); EvPermalink (Site.tag_route "b")],
     Returns (Some (Site.tag_route "b"), ["/tag/a"; "/tag/b"])).
Proof.
  refine (first_matching_route_wins
            (fun q => Returns (Site.tag_url q)) Site.tag_url
            "/tag/b/2" (Some 2%Z) [Site.tag_route "a"] (Site.tag_route "b")
            [Site.tag_route "c"] [] [] _ _ _).
  - reflexivity.
  - repeat constructor.
  - reflexivity.
Defined.

(** What is left of a URL once its page segment is taken off does not
    depend on the page it is rewritten to. *)
Lemma replace_page_suffix_base (s : string) :
  exists x, forall r, replace_page_suffix s r = x ++ r.
Proof.
  unfold replace_page_suffix.
  destruct (Str.span Str.is_digit (Str.rev s)) as [[|d ds] [|c x]];
    try (now exists s).
  destruct (Ascii.eqb_spec c "/") as [->|Ne].
  - now exists (Str.rev x).
  - exists s. intros r.
    destruct c as [[] [] [] [] [] [] [] []]; try reflexivity.
    now contradiction Ne.
Qed.

(** The page [n] of the page [m] of a URL is the page [n] of the URL. *)
Lemma page_url_of_page_url (u : string) (m n : Z) :
  (0 <= m)%Z -> page_url (page_url u m) n = page_url u n.
Proof.
  intros M. unfold page_url.
  destruct (replace_page_suffix_base u) as [x Hx]. rewrite !Hx.
  destruct (of_Z_digits m M) as [NE D].
  now apply replace_page_suffix_page.
Qed.

(** One round of the loop, for page [n]: the set keeps its URLs, and has
    the page [n] of each of them, or of the request path when it was
    empty. *)
Lemma add_page_urls_adds (reqPath : string) (n : Z) (urls : list string) :
  (0 <= n)%Z ->
  incl urls (add_page_urls reqPath n urls) /\
  add_page_urls reqPath n urls <> [] /\
  (forall u, In u urls -> In (page_url u n) (add_page_urls reqPath n urls)) /\
  (urls = [] -> In (page_url reqPath n) (add_page_urls reqPath n urls)).
Proof.
  intros N. unfold add_page_urls. destruct urls as [|u0 urls'].
  - unfold set_add. cbn [existsb app].
    split; [intros u [] | split; [discriminate | split; [intros u [] |]]].
    intros _. now left.
  - set (s := u0 :: urls').
    pose proof (forEach_add_incl (fun url => replace_page_suffix url ("/" ++ Str.of_Z n))
                  (2 * length s) 0 s) as Inc.
    split; [exact Inc | split; [| split; [| discriminate]]].
    + intros E. specialize (Inc u0 (or_introl eq_refl)). rewrite E in Inc.
      destruct Inc.
    + intros u I.
      apply (forEach_add_closed (fun url => page_url url n) s).
      * intros v. now apply page_url_of_page_url.
      * now apply Inc.
Qed.

(** The rounds for the pages [m] to [m + rounds - 1]. *)
Lemma add_pages_from_adds (reqPath : string) (rounds : nat) (m n : Z)
      (urls : list string) :
  (0 <= m <= n)%Z -> (n < m + Z.of_nat rounds)%Z ->
  (forall u, In u urls ->
             In (page_url u n) (add_pages_from reqPath m rounds urls)) /\
  (urls = [] -> In (page_url reqPath n) (add_pages_from reqPath m rounds urls)).
Proof.
  revert m urls. induction rounds as [|r IH]; intros m urls Mn Lt; [lia|].
  cbn [add_pages_from].
  destruct (add_page_urls_adds reqPath m urls ltac:(lia)) as (Inc & NE & Each & Empty).
  destruct (Z.eq_dec n m) as [->|Ne].
  - split.
    + intros u I. now apply add_pages_from_incl, Each.
    + intros E. now apply add_pages_from_incl, Empty.
  - destruct (IH (m + 1)%Z (add_page_urls reqPath m urls) ltac:(lia) ltac:(lia))
      as (Each' & _).
    split.
    + intros u I. now apply Each', Inc.
    + intros E. rewrite <- (page_url_of_page_url reqPath m n) by lia.
      now apply Each', Empty.
Qed.

(** The digits a string starts with, and what follows them. *)
Lemma span_digits_spec (s a b : string) :
  Str.span Str.is_digit s = (a, b) -> s = a ++ b /\ all_digits a = true.
Proof.
  revert a b. induction s as [|c t IH]; intros a b; cbn [Str.span].
  - intros [= <- <-]. now split.
  - destruct (Str.is_digit c) eqn:Dc.
    + destruct (Str.span Str.is_digit t) as [a' b'].
      intros [= <- <-]. destruct (IH a' b' eq_refl) as [-> D].
      split; [reflexivity|]. cbn [all_digits]. now rewrite Dc, D.
    + intros [= <- <-]. now split.
Qed.

(** A URL without a page segment gets one appended. *)
Lemma replace_page_suffix_none (u r : string) :
  no_page_segment u -> replace_page_suffix u r = u ++ r.
Proof.
  intros No. unfold replace_page_suffix.
  destruct (Str.span Str.is_digit (Str.rev u)) as [a b] eqn:S.
  apply span_digits_spec in S as [E A].
  destruct a as [|d ds]; [reflexivity|].
  destruct b as [|c x]; [reflexivity|].
  destruct (Ascii.eqb_spec c "/") as [->|Ne].
  - exfalso. apply (No (Str.rev x) (Str.rev (String d ds))).
    + now apply rev_nonempty.
    + now rewrite all_digits_rev.
    + rewrite <- (rev_involutive u), E, rev_app, rev_cons.
      now rewrite append_String_assoc.
  - destruct c as [[] [] [] [] [] [] [] []]; try reflexivity.
    now contradiction Ne.
Qed.

Section CrawlLaws.

Context {Item Feed : Type}.

(** The answer to a request with a page number lists these among its
    additional URLs, for every [n] from 1 to [page.last] and every URL [u]
    a permalink gave, or the request path when there is no route: [u/n] when
    [u] does not end in a slash and digits, and [x/n] when [u] is
    [x/digits].  The number at the end of such a URL is taken for a page
    number and replaced: the pages listed for it are those of [x]. *)
Theorem every_page_is_listed reqPath (p : Z) (declared : option Num)
        (createRSS : option Feed) requestedParams urls (data : list Item)
        (info : CollectionInfo Item Feed) (n : Z) :
  p <> 0%Z ->
  exit_info (paginate reqPath (Some p) declared createRSS requestedParams urls data)
    = Some info ->
  (1 <= n <= last_page (default_pageSize declared) (Z.of_nat (length data)))%Z ->
  let listed := additionalURLs info in
  let pages_of u :=
    (no_page_segment u -> In (u ++ "/" ++ Str.of_Z n) listed) /\
    (forall x ds,
       u = x ++ "/" ++ ds -> ds <> EmptyString -> all_digits ds = true ->
       In (x ++ "/" ++ Str.of_Z n) listed) in
  (forall u, In u urls -> pages_of u) /\
  (urls = [] -> pages_of reqPath).
Proof.
  intros P E N listed pages_of.
  unfold paginate, truthy_page, truthy_num in E.
  destruct (Z.eqb_spec p 0); [contradiction|]. cbn [negb] in E.
  assert (A : listed =
              add_pages_from reqPath 1
                (Z.to_nat (last_page (default_pageSize declared)
                             (Z.of_nat (length data)))) urls).
  { unfold listed. destruct (js_slice data _ _); cbn [exit_info] in E;
      injection E as <-; reflexivity. }
  assert (Pg : forall u, In (page_url u n) listed -> pages_of u).
  { intros u I. unfold pages_of, page_url in *. split.
    - intros No. now rewrite (replace_page_suffix_none u _ No) in I.
    - intros x ds -> NE D.
      change (x ++ "/" ++ ds) with (x ++ String "/" ds) in I.
      now rewrite (replace_page_suffix_page x ds _ NE D) in I. }
  destruct (add_pages_from_adds reqPath
              (Z.to_nat (last_page (default_pageSize declared)
                           (Z.of_nat (length data)))) 1 n urls
              ltac:(lia) ltac:(lia)) as [Each Empty].
  rewrite <- A in Each, Empty.
  split.
  - intros u I. now apply Pg, Each.
  - intros U. now apply Pg, Empty.
Qed.

End CrawlLaws.

(** Page 3 of the example collection is listed in the answer to page 1,
    whose URL is [/tag/1]. *)
Lemma every_page_is_listed_example :
  In "/tag/3" ["/tag/1"; "/tag/2"; "/tag/3"].
Proof.
  refine (proj2 (proj2 (every_page_is_listed "/tag/1" 1 (Some (Fin 1))
                          (Some "feed") None [] Example.three_posts
                          {| additionalURLs := ["/tag/1"; "/tag/2"; "/tag/3"];
                             rss := Some {| rss_feed := "feed";
                                            rss_data := Example.three_posts |} |}
                          3 ltac:(discriminate) eq_refl _) eq_refl)
                "/tag" "1" eq_refl ltac:(discriminate) eq_refl).
  vm_compute. split; discriminate.
Defined.

(** * Further properties of the dispatcher *)

Section DispatchLaws.

Context {Item Feed : Type}.

Implicit Types (H : Host Item Feed) (tr : list (Event Item)).

Lemma emits_events_weaken {A} (P P' : Event Item -> Prop) (Q : A -> Prop)
      (m : M Item A) :
  emits P Q m -> (forall ev, P ev -> P' ev) -> emits P' Q m.
Proof.
  intros Hm W tr. destruct (Hm tr) as [(evs & E & F) Qm].
  split; [|exact Qm]. exists evs. split; [exact E|].
  eapply Forall_impl; [exact W | exact F].
Qed.

Lemma emits_values_weaken {A} (P : Event Item -> Prop) (Q Q' : A -> Prop)
      (m : M Item A) :
  emits P Q m -> (forall a, Q a -> Q' a) -> emits P Q' m.
Proof.
  intros Hm W tr. destruct (Hm tr) as [E Qm].
  split; [exact E | intros a R; now apply W, Qm].
Qed.

(** The calls of the rendering of a page: its module, the calls of the
    collection block, and the rendering with the raw URL, the query kept
    for [/500] only. *)
Lemma render_page_calls H rawPathname reqPath location currentPage :
  emits (fun ev =>
           match ev with
           | EvLoadModule l => l = location
           | EvCreateCollection | EvPermalink _ | EvData _ => True
           | EvRender args =>
               request_raw args = rawPathname /\
               query_kept args = (reqPath =? "/500")
           | _ => False
           end)
        (fun _ => True)
        (render_page H rawPathname reqPath location currentPage).
Proof.
  unfold render_page.
  eapply emits_bind with (Q1 := fun _ => True);
    [now apply emits_call|]. intros pageModule _.
  eapply emits_bind with (Q1 := fun _ => True).
  - destruct (createCollection pageModule) as [created|];
      [|now apply emits_ret].
    eapply emits_bind with (Q1 := fun _ => True); [now apply emits_call|].
    intros decl _.
    eapply emits_bind with (Q1 := fun _ => True).
    + eapply emits_events_weaken.
      * eapply emits_values_weaken; [apply (emits_collection_block
            (fun ev => match ev with EvPermalink _ | EvData _ => True | _ => False end)
            reqPath (fun _ => I) (fun _ => I)) | trivial].
      * now intros [].
    + intros b _. now apply emits_ret.
  - intros [r|[collection info]] _; [now apply emits_ret|].
    eapply emits_bind with (Q1 := fun _ => True).
    + apply emits_call; [|trivial]. now split.
    + intros html _. now apply emits_ret.
Qed.

(** Every call [load] makes is one the request calls for ([expected_call]):
    the lookups take the rewritten path and the resolver the path as it
    came; a path under [ASTRO_FRONTEND] goes to the internal loader and
    never to the resolver; the bundler is only asked for a path the resolver
    does not find, and a module is only loaded for the file the resolver
    found; the page is rendered with the raw URL, and its query is kept for
    [/500] alone. *)
Theorem calls_follow_the_request H (rawPathname : option string) :
  Forall (expected_call H rawPathname) (fst (run (load H rawPathname))).
Proof.
  unfold run, load. cbv zeta.
  set (pathname := decodedPathname H (raw_or_root rawPathname)).
  set (reqPath := request_path pathname).
  assert (D : emits (expected_call H rawPathname) (fun _ => True)
                    (dispatch H rawPathname pathname reqPath)).
  { unfold dispatch.
    destruct (Str.startsWith reqPath (ASTRO_FRONTEND H)) eqn:Fr.
    - apply emits_call; [now split | trivial].
    - eapply emits_bind
        with (Q1 := fun r => r = searchForPage pathname (pages H)).
      + apply emits_call; [now split | now intros a [= <-]].
      + intros r ->.
        destruct (searchForPage pathname (pages H))
          as [location pn currentPage|pn| |p] eqn:S; try (now apply emits_ret).
        * apply emits_try_catch; [|intros e; now apply emits_ret].
          eapply emits_events_weaken; [apply render_page_calls|].
          intros ev Pe. destruct ev; cbn in Pe; try contradiction;
            try exact I.
          -- subst. now exists pn, currentPage.
          -- exact Pe.
        * apply (emits_transform_fallback (expected_call H rawPathname) reqPath).
          now split. }
  assert (L : emits (expected_call H rawPathname) (fun _ => True)
                    (bind (static_probe H reqPath)
                          (fun static =>
                             match static with
                             | Some result => ret result
                             | None => dispatch H rawPathname pathname reqPath
                             end))).
  { eapply emits_bind with (Q1 := fun _ => True).
    - apply (emits_static_probe (expected_call H rawPathname) reqPath).
      reflexivity.
    - intros [result|] _; [now apply emits_ret | exact D]. }
  destruct (L []) as [(evs & -> & F) _]. exact F.
Qed.

(** A static file wins over everything: when the static server answers
    200, [load] returns that answer, and the static probe is the only call
    it has made. *)
Theorem static_file_short_circuits H (rawPathname : option string)
        (result : LoadResult Item Feed) :
  let reqPath := request_path (decodedPathname H (raw_or_root rawPathname)) in
  loadStaticFile H reqPath = Returns result -> statusCode result = 200%Z ->
  run (load H rawPathname) = ([EvStatic reqPath], Returns result).
Proof.
  intros reqPath S C.
  unfold run, load, bind, static_probe, try_catch, bind, call, ret.
  cbv zeta. fold reqPath. now rewrite S, C.
Qed.

End DispatchLaws.

(** A static file on the example site. *)
Lemma static_file_example :
  run (load Site.with_static (Some "/tag")) =
    ([EvStatic "/tag"], Returns (Load200 "body{}" "text/css" None)).
Proof.
  exact (static_file_short_circuits Site.with_static (Some "/tag")
           (Load200 "body{}" "text/css" None) eq_refl eq_refl).
Defined.

(** * The diagnostic of a missing import *)

Import Diagnostic.

Lemma startsWith_iff (s p : string) :
  Str.startsWith s p = true <-> exists post, s = p ++ post.
Proof.
  revert s. induction p as [|a p IH]; intros s; cbn [Str.startsWith append].
  - split; [intros _; now exists s | reflexivity].
  - destruct s as [|b s]; [split; [discriminate | intros [post E]; discriminate E]|].
    rewrite andb_true_iff, IH. split.
    + intros [E [post ->]]. apply Ascii.eqb_eq in E. subst. now exists post.
    + intros [post [= -> ->]]. split; [apply Ascii.eqb_refl | now exists post].
Qed.

Lemma occurs_at_0 (s sub : string) :
  occurs_at s 0 sub <-> Str.startsWith s sub = true.
Proof.
  rewrite startsWith_iff. split.
  - intros (pre & post & -> & L). destruct pre; [|discriminate L]. now exists post.
  - intros [post ->]. now exists EmptyString, post.
Qed.

Lemma occurs_at_S (c : ascii) (s : string) (i : nat) (sub : string) :
  occurs_at (String c s) (S i) sub <-> occurs_at s i sub.
Proof.
  split.
  - intros (pre & post & E & L). destruct pre as [|d pre]; [discriminate L|].
    injection E as -> ->. injection L as L. now exists pre, post.
  - intros (pre & post & -> & L). exists (String c pre), post.
    split; [reflexivity | now rewrite <- L].
Qed.

(** [indexOf] gives the first occurrence, and [-1] when there is none. *)
Lemma indexOf_spec (s sub : string) :
  match indexOf s sub with
  | Some i => occurs_at s i sub /\ forall j, (j < i)%nat -> ~ occurs_at s j sub
  | None => forall i, ~ occurs_at s i sub
  end.
Proof.
  induction s as [|c s IH]; cbn [indexOf].
  - destruct (Str.startsWith EmptyString sub) eqn:P.
    + split; [now apply occurs_at_0 | intros j Lj; lia].
    + intros i (pre & post & E & L).
      destruct pre; [|discriminate E]. cbn in L. subst i.
      assert (O : occurs_at EmptyString 0 sub) by now exists EmptyString, post.
      apply occurs_at_0 in O. congruence.
  - destruct (Str.startsWith (String c s) sub) eqn:P.
    + split; [now apply occurs_at_0 | intros j Lj; lia].
    + destruct (indexOf s sub) as [i|]; cbn [option_map].
      * destruct IH as [O Min]. split; [now apply occurs_at_S|].
        intros [|j] Lj.
        -- rewrite occurs_at_0. congruence.
        -- rewrite occurs_at_S. apply Min. lia.
      * intros [|i].
        -- rewrite occurs_at_0. congruence.
        -- rewrite occurs_at_S. apply IH.
Qed.

(** The offset the diagnostic reports.  Of the paths made of the segments
    of the missing file, each one segment shorter at the front, the first
    that occurs anywhere in the code is found, the longest one: the offset
    is the first place where it occurs.  When none of them occurs in the
    code, the offset is 0. *)
Theorem import_offset_finds_longest_suffix (code : string) (segments : list string) :
  (exists k,
     (k < length segments)%nat /\
     occurs_at code (import_offset code segments)
               (Str.join "/" (skipn k segments)) /\
     (forall j, (j < import_offset code segments)%nat ->
                ~ occurs_at code j (Str.join "/" (skipn k segments))) /\
     (forall k' i, (k' < k)%nat ->
                   ~ occurs_at code i (Str.join "/" (skipn k' segments)))) \/
  (import_offset code segments = 0%nat /\
   forall k i, (k < length segments)%nat ->
               ~ occurs_at code i (Str.join "/" (skipn k segments))).
Proof.
  induction segments as [|a rest IH].
  - right. split; [reflexivity|]. cbn. intros k i Lk. lia.
  - cbn [import_offset].
    pose proof (indexOf_spec code (Str.join "/" (a :: rest))) as Sp.
    destruct (indexOf code (Str.join "/" (a :: rest))) as [i|].
    + left. exists 0%nat. destruct Sp as [O Min].
      cbn [skipn length]. repeat split; [lia | exact O | exact Min |].
      intros k' i' Lk. lia.
    + destruct IH as [(k & Lk & O & Min & Longer)|[Z None']].
      * left. exists (S k). cbn [skipn length].
        repeat split; [lia | exact O | exact Min |].
        intros [|k'] i Lt; [apply Sp | apply Longer; lia].
      * right. split; [exact Z|].
        intros [|k] i Lk; [apply Sp|].
        cbn [skipn]. apply None'. cbn [length] in Lk. lia.
Qed.




(** * A final slash after a collection path *)

Lemma first_line_snoc (after : string) :
  first_line (after ++ "/") = first_line after \/
  first_line (after ++ "/") = first_line after ++ "/".
Proof.
  unfold first_line. induction after as [|c t IH]; cbn [append Str.span].
  - right. reflexivity.
  - destruct (Str.is_line_terminator c); cbn [negb fst]; [now left|].
    destruct (Str.span _ (t ++ "/")) as [a b], (Str.span _ t) as [a' b'].
    cbn [fst] in *. destruct IH as [->| ->]; [now left | now right].
Qed.

Lemma page_of_match_snoc (g : string) :
  page_of_match (Some (g ++ "/")) = page_of_match (Some g).
Proof.
  unfold page_of_match.
  assert (S : filter Str.truthy (Str.split "/" (g ++ "/")) =
              filter Str.truthy (Str.split "/" g)).
  { rewrite split_app_sep, filter_app. cbn. apply app_nil_r. }
  rewrite S. destruct g as [|c g]; [reflexivity|].
  reflexivity.
Qed.

Lemma append_snoc_inv (a b c : string) (x : ascii) :
  a ++ String x EmptyString = b ++ c ->
  (c = EmptyString /\ b = a ++ String x EmptyString) \/
  exists c', c = c' ++ String x EmptyString /\ a = b ++ c'.
Proof.
  revert a. induction b as [|y b IH]; intros a E; cbn [append] in E.
  - right. exists a. now split.
  - destruct a as [|z a]; cbn [append] in E.
    + injection E as -> E. destruct b; [|discriminate E].
      cbn in E. subst c. now left.
    + injection E as -> E. destruct (IH a E) as [[-> ->]|(c' & -> & ->)].
      * now left.
      * right. now exists c'.
Qed.

Lemma plain_no_final_slash (name x : string) :
  plain name = true -> name <> x ++ "/".
Proof.
  revert x. induction name as [|c t IH]; intros x P E.
  - now destruct x.
  - cbn [plain] in P. apply andb_true_iff in P as [Pc Pt].
    destruct x as [|d x]; cbn [append] in E.
    + injection E as -> _. discriminate Pc.
    + injection E as _ E. now apply (IH x).
Qed.

(** The pattern of [$name.astro], the same for every request. *)
Lemma loadCollection_plain (name : string) :
  name <> EmptyString -> plain name = true ->
  exists atoms,
    (forall rest, eat_atoms atoms (name ++ rest) = Some rest) /\
    (forall s rest, eat_atoms atoms s = Some rest -> s = name ++ rest) /\
    forall url,
      loadCollection url [[template name]] =
        match match_route atoms url with
        | Matched group1 =>
            Collection (PageFile (template name)) (page_of_match group1)
        | NoMatch => NoCollection
        end.
Proof.
  intros N P. destruct (eat_plain name P) as (atoms & A & Fwd & Bwd).
  exists atoms. split; [exact Fwd | split; [exact Bwd|]].
  intros url. unfold loadCollection. rewrite (glob_template name N).
  cbn [loadCollection_loop].
  now rewrite (replace_param_template name N P), A.
Qed.

(** A slash at the end of a collection path changes nothing: [/name/] is
    [/name], and [/name/rest/] is [/name/rest], the same collection and the
    same page number; and a path that is no path of the collection is none
    with the slash either. *)
Theorem final_slash_keeps_the_page (name url : string) :
  name <> EmptyString -> plain name = true ->
  loadCollection (url ++ "/") [[template name]] =
  loadCollection url [[template name]].
Proof.
  intros N P.
  destruct (loadCollection_plain name N P) as (atoms & Fwd & Bwd & L).
  rewrite !L. unfold match_route.
  destruct url as [|c s]; cbn [append eat_atoms].
  - change ("/" =? "/")%char with true. cbv iota.
    destruct (eat_atoms atoms EmptyString) as [rest|] eqn:E; [|reflexivity].
    apply Bwd in E. destruct name; [congruence | discriminate E].
  - destruct (Ascii.eqb_spec "/" c) as [_|_]; [|reflexivity].
    destruct (eat_atoms atoms s) as [rest|] eqn:E.
    + apply Bwd in E. subst s. rewrite append_assoc, Fwd.
      destruct rest as [|d rest']; [reflexivity|]. cbn [append].
      destruct (Ascii.eqb_spec d "/") as [->|Nd].
      * fold (first_line (rest' ++ "/")). fold (first_line rest').
        destruct (first_line_snoc rest') as [->| ->]; [reflexivity|].
        now rewrite page_of_match_snoc.
      * destruct d as [[] [] [] [] [] [] [] []]; try reflexivity.
        now contradiction Nd.
    + destruct (eat_atoms atoms (s ++ "/")) as [r|] eqn:E'; [|reflexivity].
      exfalso. apply Bwd in E'.
      apply append_snoc_inv in E' as [[_ E']|(r' & _ & ->)].
      * now apply (plain_no_final_slash name s P).
      * rewrite Fwd in E. discriminate E.
Qed.

(** [/tag/2/] is page 2 of the tag collection, as [/tag/2] is. *)
Lemma final_slash_example :
  loadCollection "/tag/2/" Example.tag_pages =
  loadCollection "/tag/2" Example.tag_pages.
Proof.
  exact (final_slash_keeps_the_page "tag" "/tag/2" ltac:(discriminate) eq_refl).
Defined.

